(** * libnfc: bit utilities and the UID-emulation responder

    A shallow embedding of [bitutils.c] (parity, bit mirroring, endian
    swapping, the ISO14443-A CRC, the hex dumps) and of the anti-collision
    loop of [nfc-emulate-uid.c], followed by the properties proved of them.

    Conventions.  The types [byte], [ui32] and [ui64] of [bitutils.h] are
    the unsigned integers of 8, 32 and 64 bits: a [byte] is a [Z] in
    [0, 2^8), a [ui32] a [Z] in [0, 2^32), a [ui64] a [Z] in [0, 2^64), and
    every operation that can leave the range is followed by its explicit
    wrap-around.  A C array is a [list Z] read with [load] and written with
    [store]; an access outside the array is undefined behaviour in C and is
    a [Fault] here. *)

From Stdlib Require Import ZArith List String Ascii Lia Bool.
From stdpp Require Import base option list.

Open Scope Z_scope.

(** ** Machine integers *)

Module Machine.

Definition u8 (z : Z) : Z := z mod 2 ^ 8.
Definition u32 (z : Z) : Z := z mod 2 ^ 32.
Definition u64 (z : Z) : Z := z mod 2 ^ 64.

Definition is_u8 (z : Z) : Prop := 0 <= z < 2 ^ 8.
Definition is_u16 (z : Z) : Prop := 0 <= z < 2 ^ 16.
Definition is_u32 (z : Z) : Prop := 0 <= z < 2 ^ 32.
Definition is_u64 (z : Z) : Prop := 0 <= z < 2 ^ 64.

(** The outcome of running a piece of C code. *)
Inductive outcome (A : Type) : Type :=
  | Ok (a : A)      (* normal completion *)
  | Fault           (* access outside an array *)
  | Timeout.        (* the loop budget of the model ran out *)
Arguments Ok {A} a.
Arguments Fault {A}.
Arguments Timeout {A}.

Definition obind {A B : Type} (m : outcome A) (k : A -> outcome B) : outcome B :=
  match m with
  | Ok a => k a
  | Fault => Fault
  | Timeout => Timeout
  end.

(** [p[i]] as an rvalue. *)
Definition load (mem : list Z) (i : nat) : outcome Z :=
  match mem !! i with
  | Some v => Ok v
  | None => Fault
  end.

(** [p[i] = v]. *)
Definition store (mem : list Z) (i : nat) (v : Z) : outcome (list Z) :=
  if decide (i < length mem)%nat then Ok (<[i := v]> mem) else Fault.

End Machine.

Import Machine.

Notation "x <- m ;; k" := (obind m (fun x => k))
  (at level 100, m at next level, right associativity).

(** ** bitutils.c *)

Module BitUtils.

Definition OddParity : list Z := [
    1; 0; 0; 1; 0; 1; 1; 0; 0; 1; 1; 0; 1; 0; 0; 1;
    0; 1; 1; 0; 1; 0; 0; 1; 1; 0; 0; 1; 0; 1; 1; 0;
    0; 1; 1; 0; 1; 0; 0; 1; 1; 0; 0; 1; 0; 1; 1; 0;
    1; 0; 0; 1; 0; 1; 1; 0; 0; 1; 1; 0; 1; 0; 0; 1;
    0; 1; 1; 0; 1; 0; 0; 1; 1; 0; 0; 1; 0; 1; 1; 0;
    1; 0; 0; 1; 0; 1; 1; 0; 0; 1; 1; 0; 1; 0; 0; 1;
    1; 0; 0; 1; 0; 1; 1; 0; 0; 1; 1; 0; 1; 0; 0; 1;
    0; 1; 1; 0; 1; 0; 0; 1; 1; 0; 0; 1; 0; 1; 1; 0;
    0; 1; 1; 0; 1; 0; 0; 1; 1; 0; 0; 1; 0; 1; 1; 0;
    1; 0; 0; 1; 0; 1; 1; 0; 0; 1; 1; 0; 1; 0; 0; 1;
    1; 0; 0; 1; 0; 1; 1; 0; 0; 1; 1; 0; 1; 0; 0; 1;
    0; 1; 1; 0; 1; 0; 0; 1; 1; 0; 0; 1; 0; 1; 1; 0;
    1; 0; 0; 1; 0; 1; 1; 0; 0; 1; 1; 0; 1; 0; 0; 1;
    0; 1; 1; 0; 1; 0; 0; 1; 1; 0; 0; 1; 0; 1; 1; 0;
    0; 1; 1; 0; 1; 0; 0; 1; 1; 0; 0; 1; 0; 1; 1; 0;
    1; 0; 0; 1; 0; 1; 1; 0; 0; 1; 1; 0; 1; 0; 0; 1
  ].

Definition ByteMirror : list Z := [
    0x00; 0x80; 0x40; 0xc0; 0x20; 0xa0; 0x60; 0xe0; 0x10; 0x90; 0x50; 0xd0; 0x30;
    0xb0; 0x70; 0xf0; 0x08; 0x88; 0x48; 0xc8; 0x28; 0xa8; 0x68; 0xe8; 0x18; 0x98;
    0x58; 0xd8; 0x38; 0xb8; 0x78; 0xf8; 0x04; 0x84; 0x44; 0xc4; 0x24; 0xa4; 0x64;
    0xe4; 0x14; 0x94; 0x54; 0xd4; 0x34; 0xb4; 0x74; 0xf4; 0x0c; 0x8c; 0x4c; 0xcc;
    0x2c; 0xac; 0x6c; 0xec; 0x1c; 0x9c; 0x5c; 0xdc; 0x3c; 0xbc; 0x7c; 0xfc; 0x02;
    0x82; 0x42; 0xc2; 0x22; 0xa2; 0x62; 0xe2; 0x12; 0x92; 0x52; 0xd2; 0x32; 0xb2;
    0x72; 0xf2; 0x0a; 0x8a; 0x4a; 0xca; 0x2a; 0xaa; 0x6a; 0xea; 0x1a; 0x9a; 0x5a;
    0xda; 0x3a; 0xba; 0x7a; 0xfa; 0x06; 0x86; 0x46; 0xc6; 0x26; 0xa6; 0x66; 0xe6;
    0x16; 0x96; 0x56; 0xd6; 0x36; 0xb6; 0x76; 0xf6; 0x0e; 0x8e; 0x4e; 0xce; 0x2e;
    0xae; 0x6e; 0xee; 0x1e; 0x9e; 0x5e; 0xde; 0x3e; 0xbe; 0x7e; 0xfe; 0x01; 0x81;
    0x41; 0xc1; 0x21; 0xa1; 0x61; 0xe1; 0x11; 0x91; 0x51; 0xd1; 0x31; 0xb1; 0x71;
    0xf1; 0x09; 0x89; 0x49; 0xc9; 0x29; 0xa9; 0x69; 0xe9; 0x19; 0x99; 0x59; 0xd9;
    0x39; 0xb9; 0x79; 0xf9; 0x05; 0x85; 0x45; 0xc5; 0x25; 0xa5; 0x65; 0xe5; 0x15;
    0x95; 0x55; 0xd5; 0x35; 0xb5; 0x75; 0xf5; 0x0d; 0x8d; 0x4d; 0xcd; 0x2d; 0xad;
    0x6d; 0xed; 0x1d; 0x9d; 0x5d; 0xdd; 0x3d; 0xbd; 0x7d; 0xfd; 0x03; 0x83; 0x43;
    0xc3; 0x23; 0xa3; 0x63; 0xe3; 0x13; 0x93; 0x53; 0xd3; 0x33; 0xb3; 0x73; 0xf3;
    0x0b; 0x8b; 0x4b; 0xcb; 0x2b; 0xab; 0x6b; 0xeb; 0x1b; 0x9b; 0x5b; 0xdb; 0x3b;
    0xbb; 0x7b; 0xfb; 0x07; 0x87; 0x47; 0xc7; 0x27; 0xa7; 0x67; 0xe7; 0x17; 0x97;
    0x57; 0xd7; 0x37; 0xb7; 0x77; 0xf7; 0x0f; 0x8f; 0x4f; 0xcf; 0x2f; 0xaf; 0x6f;
    0xef; 0x1f; 0x9f; 0x5f; 0xdf; 0x3f; 0xbf; 0x7f; 0xff
  ].

(** Indexing a 256-entry table by a [byte]. *)
Definition table_get (t : list Z) (bt : Z) : Z := nth (Z.to_nat bt) t 0.

Definition oddparity (bt : Z) : Z := table_get OddParity bt.

(** [for (uiByteNr=0; uiByteNr<uiLen; uiByteNr++)]: [n] iterations are
    left and the next one is at index [uiByteNr]. *)
Fixpoint oddparity_bytes_loop (n : nat) (pbtData : list Z) (uiByteNr : nat)
    (pbtPar : list Z) : outcome (list Z) :=
  match n with
  | O => Ok pbtPar
  | S n' =>
      d <- load pbtData uiByteNr ;;
      pbtPar' <- store pbtPar uiByteNr (table_get OddParity d) ;;
      oddparity_bytes_loop n' pbtData (S uiByteNr) pbtPar'
  end.

Definition oddparity_bytes (pbtData : list Z) (uiLen : Z) (pbtPar : list Z)
    : outcome (list Z) :=
  oddparity_bytes_loop (Z.to_nat uiLen) pbtData 0 pbtPar.

Definition mirror (bt : Z) : Z := table_get ByteMirror bt.

(** [pbts] is the array, [p] the offset the moving pointer has reached. *)
Fixpoint mirror_bytes_loop (n : nat) (pbts : list Z) (p : nat) : outcome (list Z) :=
  match n with
  | O => Ok pbts
  | S n' =>
      d <- load pbts p ;;
      pbts' <- store pbts p (table_get ByteMirror d) ;;
      mirror_bytes_loop n' pbts' (S p)
  end.

Definition mirror_bytes (pbts : list Z) (uiLen : Z) : outcome (list Z) :=
  mirror_bytes_loop (Z.to_nat uiLen) pbts 0.

(** The object representation of an integer: [n] bytes, little-endian or
    big-endian according to the target.  [mirror32] and [mirror64] mirror
    each byte of the representation, so the result is the same on both. *)
Fixpoint to_bytes_le (n : nat) (z : Z) : list Z :=
  match n with
  | O => []
  | S n' => z mod 256 :: to_bytes_le n' (z / 256)
  end.

Fixpoint of_bytes_le (l : list Z) : Z :=
  match l with
  | [] => 0
  | b :: l' => b + 256 * of_bytes_le l'
  end.

Definition mirror32 (ui32Bits : Z) : outcome Z :=
  bs <- mirror_bytes (to_bytes_le 4 ui32Bits) 4 ;; Ok (of_bytes_le bs).

Definition mirror64 (ui64Bits : Z) : outcome Z :=
  bs <- mirror_bytes (to_bytes_le 8 ui64Bits) 8 ;; Ok (of_bytes_le bs).

(** [ui32N] is the value read through the [ui32] pointer. *)
Definition swap_endian32 (ui32N : Z) : Z :=
  u32 (u32 (u32 (u32 (Z.shiftl (Z.land ui32N 0xFF) 24)
                 + u32 (Z.shiftl (Z.land ui32N 0xFF00) 8))
            + Z.shiftr (Z.land ui32N 0xFF0000) 8)
       + Z.shiftr (Z.land ui32N 0xFF000000) 24).

Definition swap_endian64 (ui64N : Z) : Z :=
  u64 (u64 (u64 (u64 (u64 (u64 (u64 (u64 (Z.shiftl (Z.land ui64N 0xFF) 56)
                                     + u64 (Z.shiftl (Z.land ui64N 0xFF00) 40))
                                + u64 (Z.shiftl (Z.land ui64N 0xFF0000) 24))
                           + u64 (Z.shiftl (Z.land ui64N 0xFF000000) 8))
                      + Z.shiftr (Z.land ui64N 0xFF00000000) 8)
                 + Z.shiftr (Z.land ui64N 0xFF0000000000) 24)
            + Z.shiftr (Z.land ui64N 0xFF000000000000) 40)
       + Z.shiftr (Z.land ui64N 0xFF00000000000000) 56).

(** One execution of the body of the [do ... while] loop of
    [append_iso14443a_crc], on the byte [bt] read from [*pbtData]: the new
    value of [wCrc].  [bt] is a [byte], so both assignments to it wrap. *)
Definition crc_body (bt wCrc : Z) : Z :=
  let bt := u8 (Z.lxor bt (u8 (Z.land wCrc 0x00FF))) in
  let bt := u8 (Z.lxor bt (Z.shiftl bt 4)) in
  Z.lxor (Z.lxor (Z.lxor (Z.shiftr wCrc 8) (u32 (Z.shiftl bt 8)))
                 (u32 (Z.shiftl bt 3)))
         (Z.shiftr bt 4).

(** The checksum register after the body ran on the bytes [data], first
    byte first. *)
Definition crc_fold (data : list Z) (wCrc : Z) : Z :=
  fold_left (fun c bt => crc_body bt c) data wCrc.

(** [do { ... } while (--uiLen);] with [p] the offset [pbtData] has reached.
    The counter is a [ui32]: decrementing 0 gives [2^32 - 1].  The result is
    the offset and the checksum the loop ends with. *)
Fixpoint crc_loop (fuel : nat) (mem : list Z) (p : nat) (wCrc uiLen : Z)
    : outcome (nat * Z) :=
  match fuel with
  | O => Timeout
  | S fuel' =>
      bt <- load mem p ;;
      let wCrc' := crc_body bt wCrc in
      let uiLen' := u32 (uiLen - 1) in
      if uiLen' =? 0 then Ok (S p, wCrc')
      else crc_loop fuel' mem (S p) wCrc' uiLen'
  end.

Definition append_iso14443a_crc (fuel : nat) (pbtData : list Z) (uiLen : Z)
    : outcome (list Z) :=
  r <- crc_loop fuel pbtData 0 0x6363 uiLen ;;
  mem <- store pbtData (fst r) (u8 (Z.land (snd r) 0xFF)) ;;
  store mem (S (fst r)) (u8 (Z.land (Z.shiftr (snd r) 8) 0xFF)).

(** *** Text written to the standard output *)

Definition nl : string := String (ascii_of_nat 10) EmptyString.
Definition tab : string := String (ascii_of_nat 9) EmptyString.
Definition dquote : string := String (ascii_of_nat 34) EmptyString.

Definition hex_digit (digits : string) (d : Z) : ascii :=
  nth (Z.to_nat d) (list_ascii_of_string digits) "?"%char.

(** [printf("%02x", bt)] and [printf("%02X", bt)] for a [byte]. *)
Definition fmt_02x (bt : Z) : string :=
  String (hex_digit "0123456789abcdef" (bt / 16))
    (String (hex_digit "0123456789abcdef" (bt mod 16)) EmptyString).

Definition fmt_02X (bt : Z) : string :=
  String (hex_digit "0123456789ABCDEF" (bt / 16))
    (String (hex_digit "0123456789ABCDEF" (bt mod 16)) EmptyString).

Fixpoint print_hex_loop (n : nat) (pbtData : list Z) (uiPos : nat) : outcome string :=
  match n with
  | O => Ok EmptyString
  | S n' =>
      d <- load pbtData uiPos ;;
      rest <- print_hex_loop n' pbtData (S uiPos) ;;
      Ok ((fmt_02x d ++ "  ") ++ rest)%string
  end.

Definition print_hex (pbtData : list Z) (uiBytes : Z) : outcome string :=
  body <- print_hex_loop (Z.to_nat uiBytes) pbtData 0 ;;
  Ok (body ++ nl)%string.

(** [if (uiBits%8 != 0) printf("%02x",pbtData[uiBytes]);] *)
Definition print_rest_bits (pbtData : list Z) (uiBits uiBytes : Z) : outcome string :=
  if negb (uiBits mod 8 =? 0)
  then d <- load pbtData (Z.to_nat uiBytes) ;; Ok (fmt_02x d)
  else Ok EmptyString.

Definition print_hex_bits (pbtData : list Z) (uiBits : Z) : outcome string :=
  let uiBytes := uiBits / 8 in
  body <- print_hex_loop (Z.to_nat uiBytes) pbtData 0 ;;
  rest <- print_rest_bits pbtData uiBits uiBytes ;;
  Ok (body ++ rest ++ nl)%string.

(** What [print_hex_par] writes for the byte [d] with parity byte [par]. *)
Definition print_hex_par_byte (d par : Z) : string :=
  (fmt_02x d ++ (if negb (Z.eqb (table_get OddParity d) par) then "! " else "  "))%string.

Fixpoint print_hex_par_loop (n : nat) (pbtData : list Z) (uiPos : nat)
    (pbtDataPar : list Z) : outcome string :=
  match n with
  | O => Ok EmptyString
  | S n' =>
      d <- load pbtData uiPos ;;
      par <- load pbtDataPar uiPos ;;
      rest <- print_hex_par_loop n' pbtData (S uiPos) pbtDataPar ;;
      Ok (print_hex_par_byte d par ++ rest)%string
  end.

Definition print_hex_par (pbtData : list Z) (uiBits : Z) (pbtDataPar : list Z)
    : outcome string :=
  let uiBytes := uiBits / 8 in
  body <- print_hex_par_loop (Z.to_nat uiBytes) pbtData 0 pbtDataPar ;;
  rest <- print_rest_bits pbtData uiBits uiBytes ;;
  Ok (body ++ rest ++ nl)%string.

End BitUtils.

Import BitUtils.

(** ** nfc-emulate-uid.c *)

Module EmulateUid.

Definition MAX_FRAME_LEN : nat := 264.
Definition EXIT_SUCCESS : Z := 0.
Definition EXIT_FAILURE : Z := 1.

(** The arrays [pbtTx] is made to point to. *)
Inductive buffer : Type := BufAtqa | BufUidBcc | BufSak.

(** The objects of the program and the part of the world it acts on. *)
Record machine : Type := Machine {
  (* file scope *)
  abtRecv : list Z;
  szRecvBits : Z;
  abtAtqa : list Z;
  abtUidBcc : list Z;
  abtSak : list Z;
  (* locals of main *)
  pbtTx : option buffer;          (* [None] is [NULL] *)
  szTxBits : option Z;            (* [None] is not yet assigned *)
  quiet_output : bool;
  (* the world *)
  stdout : string;
  stderr : list string;
  sent : list (list Z * Z)        (* frames given to the device, oldest first *)
}.

Definition initial : machine :=
  {| abtRecv := repeat 0 MAX_FRAME_LEN;
     szRecvBits := 0;
     abtAtqa := [0x04; 0x00];
     abtUidBcc := [0xDE; 0xAD; 0xBE; 0xAF; 0x62];
     abtSak := [0x08; 0xb6; 0xdd; 0; 0; 0; 0; 0; 0];
     pbtTx := None;
     szTxBits := None;
     quiet_output := false;
     stdout := EmptyString;
     stderr := [];
     sent := [] |}.

Definition set_recv (data : list Z) (bits : Z) (m : machine) : machine :=
  Machine data bits (abtAtqa m) (abtUidBcc m) (abtSak m) (pbtTx m) (szTxBits m)
    (quiet_output m) (stdout m) (stderr m) (sent m).

Definition set_abtUidBcc (l : list Z) (m : machine) : machine :=
  Machine (abtRecv m) (szRecvBits m) (abtAtqa m) l (abtSak m) (pbtTx m) (szTxBits m)
    (quiet_output m) (stdout m) (stderr m) (sent m).

Definition set_pbtTx (p : option buffer) (m : machine) : machine :=
  Machine (abtRecv m) (szRecvBits m) (abtAtqa m) (abtUidBcc m) (abtSak m) p (szTxBits m)
    (quiet_output m) (stdout m) (stderr m) (sent m).

Definition set_szTxBits (n : Z) (m : machine) : machine :=
  Machine (abtRecv m) (szRecvBits m) (abtAtqa m) (abtUidBcc m) (abtSak m) (pbtTx m) (Some n)
    (quiet_output m) (stdout m) (stderr m) (sent m).

Definition set_quiet_output (q : bool) (m : machine) : machine :=
  Machine (abtRecv m) (szRecvBits m) (abtAtqa m) (abtUidBcc m) (abtSak m) (pbtTx m) (szTxBits m)
    q (stdout m) (stderr m) (sent m).

(** [printf] of the text [s]. *)
Definition printf (s : string) (m : machine) : machine :=
  Machine (abtRecv m) (szRecvBits m) (abtAtqa m) (abtUidBcc m) (abtSak m) (pbtTx m) (szTxBits m)
    (quiet_output m) (stdout m ++ s) (stderr m) (sent m).

(** [ERR] and [nfc_perror] write to the standard error stream; only the
    message is kept. *)
Definition eprint (s : string) (m : machine) : machine :=
  Machine (abtRecv m) (szRecvBits m) (abtAtqa m) (abtUidBcc m) (abtSak m) (pbtTx m) (szTxBits m)
    (quiet_output m) (stdout m) (stderr m ++ [s]) (sent m).

Definition transmit (frame : list Z * Z) (m : machine) : machine :=
  Machine (abtRecv m) (szRecvBits m) (abtAtqa m) (abtUidBcc m) (abtSak m) (pbtTx m) (szTxBits m)
    (quiet_output m) (stdout m) (stderr m) (sent m ++ [frame]).

(** How far [main] got. *)
Inductive run : Type :=
  | Running (m : machine)              (* still executing *)
  | Exited (code : Z) (m : machine)    (* called [exit (code)] *)
  | Crashed.                           (* undefined behaviour *)

Definition rbind (r : run) (k : machine -> run) : run :=
  match r with
  | Running m => k m
  | Exited c m => Exited c m
  | Crashed => Crashed
  end.

(** Printing what a dump produced.  The [print_hex_bits] that [main] calls
    is the one of [bitutils.c]. *)
Definition printf_dump (o : outcome string) (m : machine) : run :=
  match o with
  | Ok s => Running (printf s m)
  | _ => Crashed
  end.

Definition print_usage (argv0 : string) (m : machine) : machine :=
  printf (tab ++ "[UID]" ++ tab
            ++ "UID to emulate, specified as 8 HEX digits (default is DEADBEAF)." ++ nl)
  (printf nl
  (printf (tab ++ "-q" ++ tab
            ++ "Quiet mode. Silent output: received and sent frames will not be shown (improves timing)."
            ++ nl)
  (printf (tab ++ "-h" ++ tab ++ "Help. Print this message." ++ nl)
  (printf ("Options:" ++ nl)
  (printf ("Usage: " ++ argv0 ++ " [OPTIONS] [UID]" ++ nl) m))))).

(** *** The C library's [strtol (s, NULL, 16)]

    White space is skipped, then an optional sign, an optional [0x] or [0X]
    that a hexadecimal digit follows, then the longest run of hexadecimal
    digits; no digit at all gives 0.  [main] only passes strings of two
    characters, far from the range where [strtol] saturates. *)

Definition code (c : ascii) : Z := Z.of_nat (nat_of_ascii c).

Definition isspace (c : ascii) : bool :=
  (code c =? 32) || ((9 <=? code c) && (code c <=? 13)).

Definition hex_value (c : ascii) : option Z :=
  if (48 <=? code c) && (code c <=? 57) then Some (code c - 48)
  else if (97 <=? code c) && (code c <=? 102) then Some (code c - 87)
  else if (65 <=? code c) && (code c <=? 70) then Some (code c - 55)
  else None.

Fixpoint strtol_space (s : list ascii) : list ascii :=
  match s with
  | c :: s' => if isspace c then strtol_space s' else s
  | [] => []
  end.

Definition strtol_prefix (s : list ascii) : list ascii :=
  match s with
  | z :: x :: d :: s' =>
      if (code z =? 48) && ((code x =? 120) || (code x =? 88))
         && (match hex_value d with Some _ => true | None => false end)
      then d :: s' else s
  | _ => s
  end.

Fixpoint strtol_digits (s : list ascii) (acc : Z) : Z :=
  match s with
  | c :: s' =>
      match hex_value c with
      | Some d => strtol_digits s' (16 * acc + d)
      | None => acc
      end
  | [] => acc
  end.

Definition strtol16 (s : string) : Z :=
  match strtol_space (list_ascii_of_string s) with
  | c :: s' =>
      if code c =? 45 then - strtol_digits (strtol_prefix s') 0
      else if code c =? 43 then strtol_digits (strtol_prefix s') 0
      else strtol_digits (strtol_prefix (c :: s')) 0
  | [] => 0
  end.

(** *** Command line options *)

(** The body of [for (i = 0; i < 4; ++i)], [n] iterations left: two
    characters of [arg] are copied to [abtTmp], converted and stored, and
    folded into [abtUidBcc[4]].  The array has 5 elements, the indices
    stay below 5. *)
Fixpoint main_uid_loop (n : nat) (i : nat) (arg : string) (uidbcc : list Z) : list Z :=
  match n with
  | O => uidbcc
  | S n' =>
      let abtTmp := substring (i * 2) 2 arg in
      let uidbcc := <[i := u8 (strtol16 abtTmp)]> uidbcc in
      let uidbcc := <[4%nat := Z.lxor (nth 4 uidbcc 0) (nth i uidbcc 0)]> uidbcc in
      main_uid_loop n' (S i) arg uidbcc
  end.

Definition main_uid (arg : string) (m : machine) : machine :=
  let m := printf ("[+] Using UID: " ++ arg ++ nl) m in
  let uidbcc := <[4%nat := 0x00]> (abtUidBcc m) in
  set_abtUidBcc (main_uid_loop 4 0 arg uidbcc) m.

(** [for (arg = 1; arg < argc; arg++)] over [argv[1]], ..., [argv[argc-1]];
    [arg == argc - 1] holds at the last of them. *)
Fixpoint main_options (argv0 : string) (args : list string) (m : machine) : run :=
  match args with
  | [] => Running m
  | a :: rest =>
      if String.eqb a "-h" then Exited EXIT_SUCCESS (print_usage argv0 m)
      else if String.eqb a "-q" then
        main_options argv0 rest (set_quiet_output true (printf ("Quiet mode." ++ nl) m))
      else if (match rest with [] => true | _ => false end)
              && (Z.of_nat (String.length a) =? 8) then
        main_options argv0 rest (main_uid a m)
      else
        Exited EXIT_FAILURE
          (print_usage argv0 (eprint (a ++ " is not supported option.") m))
  end.

(** *** The device *)

(** What the device answers while [main] sets it up. *)
Record device : Type := Device {
  connect_ok : bool;              (* [nfc_connect] returned a device *)
  acName : string;
  init_ok : bool;                 (* [nfc_target_init] *)
  init_data : list Z;             (* [abtRecv] and [szRecvBits] after it *)
  init_bits : Z;
  configure_crc_ok : bool;        (* [nfc_configure (pnd, NDO_HANDLE_CRC, false)] *)
  configure_parity_ok : bool      (* [nfc_configure (pnd, NDO_HANDLE_PARITY, true)] *)
}.

Definition main_connect (d : device) (m : machine) : run :=
  if negb (connect_ok d) then
    Exited EXIT_FAILURE (printf ("Unable to connect to NFC device" ++ nl) m)
  else
    let m := printf nl m in
    let m := printf ("Connected to NFC device: " ++ acName d ++ nl) m in
    let m := printf ("[+] Try to break out the auto-emulation, this requires a second NFC device!" ++ nl) m in
    let m := printf ("[+] To do this, please send any command after the anti-collision" ++ nl) m in
    let m := printf ("[+] For example, send a RATS command or use the " ++ dquote ++ "nfc-anticol"
                       ++ dquote ++ " or " ++ dquote ++ "nfc-list" ++ dquote ++ " tool." ++ nl) m in
    let m := set_recv (init_data d) (init_bits d) m in
    if negb (init_ok d) then
      Exited EXIT_FAILURE
        (eprint "Could not come out of auto-emulation, no command was received" m)
    else
      let m := printf "[+] Received initiator command: " m in
      rbind (printf_dump (print_hex_bits (abtRecv m) (szRecvBits m)) m) (fun m =>
      let m := printf ("[+] Configuring communication" ++ nl) m in
      if negb (configure_crc_ok d) || negb (configure_parity_ok d) then
        Exited EXIT_FAILURE (eprint "nfc_configure" m)
      else
        Running
          (printf ("[+] Done, the emulated tag is initialized with UID: "
                     ++ fmt_02X (nth 0 (abtUidBcc m) 0) ++ fmt_02X (nth 1 (abtUidBcc m) 0)
                     ++ fmt_02X (nth 2 (abtUidBcc m) 0) ++ fmt_02X (nth 3 (abtUidBcc m) 0)
                     ++ nl ++ nl) m)).

(** *** The anti-collision loop *)

(** One turn of [while (true)]: what [nfc_target_receive_bits] did (its
    result, and [abtRecv] and [szRecvBits] after the call) and whether
    [nfc_target_send_bits], if called, succeeds. *)
Record event : Type := Event {
  rx_ok : bool;
  rx_data : list Z;
  rx_bits : Z;
  tx_ok : bool
}.

(** [switch (szRecvBits)]. *)
Definition main_switch (m : machine) : machine :=
  if szRecvBits m =? 7 then
    let m := set_szTxBits 16 (set_pbtTx (Some BufAtqa) m) in
    if negb (quiet_output m) then printf nl m else m
  else if szRecvBits m =? 16 then
    set_szTxBits 40 (set_pbtTx (Some BufUidBcc) m)
  else if szRecvBits m =? 72 then
    set_szTxBits 24 (set_pbtTx (Some BufSak) m)
  else
    set_szTxBits 0 m.

(** The array a [pbtTx] points to. *)
Definition deref (m : machine) (b : buffer) : list Z :=
  match b with
  | BufAtqa => abtAtqa m
  | BufUidBcc => abtUidBcc m
  | BufSak => abtSak m
  end.

(** The frame the device is given: the bytes that hold the first [bits]
    bits at [pbtTx], and the number of bits.  The array must hold them. *)
Definition frame_at (mem : list Z) (bits : Z) : option (list Z * Z) :=
  let n := Z.to_nat ((bits + 7) / 8) in
  if decide (n <= length mem)%nat then Some (take n mem, bits) else None.

(** [if (szTxBits) { ... }] *)
Definition main_reply (e : event) (m : machine) : run :=
  match szTxBits m with
  | None => Crashed
  | Some bits =>
      if negb (bits =? 0) then
        match pbtTx m with
        | None => Crashed
        | Some b =>
            match frame_at (deref m b) bits with
            | None => Crashed
            | Some frame =>
                let m := transmit frame m in
                if negb (tx_ok e) then
                  Exited EXIT_FAILURE (eprint "nfc_target_send_bits" m)
                else if negb (quiet_output m) then
                  printf_dump (print_hex_bits (deref m b) bits) (printf "T: " m)
                else Running m
            end
        end
      else Running m
  end.

Definition main_loop_body (e : event) (m : machine) : run :=
  let m := set_recv (rx_data e) (rx_bits e) m in
  if rx_ok e then
    let m := main_switch m in
    rbind (if negb (quiet_output m)
           then printf_dump (print_hex_bits (abtRecv m) (szRecvBits m)) (printf "R: " m)
           else Running m)
          (main_reply e)
  else Running m.

(** The loop never ends by itself; [main_loop] runs it for the turns of
    [events]. *)
Fixpoint main_loop (events : list event) (m : machine) : run :=
  match events with
  | [] => Running m
  | e :: events' => rbind (main_loop_body e m) (main_loop events')
  end.

(** The machine a run stopped with, unless it crashed. *)
Definition final (r : run) : option machine :=
  match r with
  | Running m => Some m
  | Exited _ m => Some m
  | Crashed => None
  end.

(** What the device promises about a received frame: [abtRecv] keeps its
    [MAX_FRAME_LEN] bytes and the frame lies within them. *)
Definition wf_event (e : event) : Prop :=
  length (rx_data e) = MAX_FRAME_LEN
  /\ 0 <= rx_bits e <= 8 * Z.of_nat MAX_FRAME_LEN.

(** The frame the loop answers a frame of [bits] bits with, if any. *)
Definition reply_to (m : machine) (bits : Z) : list (list Z * Z) :=
  if bits =? 7 then [(take 2 (abtAtqa m), 16)]
  else if bits =? 16 then [(take 5 (abtUidBcc m), 40)]
  else if bits =? 72 then [(take 3 (abtSak m), 24)]
  else [].

Definition same_identity (m m' : machine) : Prop :=
  abtAtqa m' = abtAtqa m /\ abtUidBcc m' = abtUidBcc m /\ abtSak m' = abtSak m.

(** A turn from [m] to [m'] that answers the received frame, whose dump is
    [r], with the first [bits] bits ([nbytes] bytes) of the array [buf]:
    the frame is given to the device; when the device sends it the loop
    goes on, and when it does not [main] reports it and exits.  Without
    [-q] the turn writes [lead], then [R: ] and the dump of the received
    frame, then, once the reply is sent, [T: ] and the dump of the reply. *)
Definition turn_answered (e : event) (m m' : machine) (lead r : string)
    (buf : list Z) (nbytes : nat) (bits : Z) : Prop :=
  exists t,
    print_hex_bits buf bits = Ok t
    /\ sent m' = sent m ++ [(take nbytes buf, bits)]
    /\ if tx_ok e then
         main_loop_body e m = Running m'
         /\ stderr m' = stderr m
         /\ (if quiet_output m then stdout m' = stdout m
             else stdout m' = (stdout m ++ lead ++ "R: " ++ r ++ "T: " ++ t)%string)
       else
         main_loop_body e m = Exited EXIT_FAILURE m'
         /\ stderr m' = stderr m ++ ["nfc_target_send_bits"%string]
         /\ (if quiet_output m then stdout m' = stdout m
             else stdout m' = (stdout m ++ lead ++ "R: " ++ r)%string).

(** A turn that ignores the received frame: nothing is sent, nothing is
    reported, the loop goes on; without [-q] the turn writes [R: ] and the
    dump of the received frame. *)
Definition turn_ignored (e : event) (m m' : machine) (r : string) : Prop :=
  main_loop_body e m = Running m'
  /\ sent m' = sent m
  /\ stderr m' = stderr m
  /\ (if quiet_output m then stdout m' = stdout m
      else stdout m' = (stdout m ++ "R: " ++ r)%string).

(** [argv] is [argv0 :: args]. *)
Definition main (argv0 : string) (args : list string) (d : device)
    (events : list event) : run :=
  rbind (rbind (main_options argv0 args initial) (main_connect d)) (main_loop events).

End EmulateUid.

Import EmulateUid.

(** ** Reference definitions

    What the documentation of the library says the functions compute, in
    the words of the documentation; the theorems compare the code with
    them. *)

Module Reference.

(** The number of bits set among the [n] low bits of [b]. *)
Fixpoint popcount_upto (n : nat) (b : Z) : nat :=
  match n with
  | O => O
  | S n' => ((if Z.testbit b (Z.of_nat n') then 1 else 0) + popcount_upto n' b)%nat
  end.

Definition popcount (b : Z) : nat := popcount_upto 8 b.

(** A reflected 16-bit CRC, one bit at a time: the register is shifted
    right, and the polynomial is folded in when a one falls out. *)
Definition crc16_shift (poly c : Z) : Z :=
  if Z.odd c then Z.lxor (Z.shiftr c 1) poly else Z.shiftr c 1.

Definition crc16_byte (poly c b : Z) : Z :=
  Nat.iter 8 (crc16_shift poly) (Z.lxor c b).

Definition crc16 (poly init : Z) (data : list Z) : Z :=
  fold_left (crc16_byte poly) data init.

(** CRC-A of ISO14443-A: polynomial 0x8408, initial value 0x6363. *)
Definition crc_a (data : list Z) : Z := crc16 0x8408 0x6363 data.

End Reference.

Import Reference.

(** ** Exhaustive checks

    [check_range P n z] tests [P] on the [n] integers from [z] on. *)

Fixpoint check_range (P : Z -> bool) (n : nat) (z : Z) : bool :=
  match n with
  | O => true
  | S n' => P z && check_range P n' (Z.succ z)
  end.

(** The register before a zero byte was run through the body, from the
    register after it. *)
Definition crc_body_inv (y : Z) : Z :=
  let yh := Z.shiftr y 8 in
  let bt := Z.lxor yh (Z.shiftr yh 5) in
  let lo := Z.lxor bt (u8 (Z.shiftl bt 4)) in
  let hi := Z.land (Z.lxor (Z.lxor (Z.lxor y (Z.shiftl bt 8)) (Z.shiftl bt 3))
                           (Z.shiftr bt 4)) 0xFF in
  hi * 256 + lo.

(** * Properties *)

(** ** Checking a decidable property on a range of integers *)

Lemma check_range_sound (P : Z -> bool) (n : nat) :
  forall z0, check_range P n z0 = true ->
  forall z, z0 <= z < z0 + Z.of_nat n -> P z = true.
Proof.
  induction n as [|n IH]; intros z0 Hc z Hz; [lia|].
  cbn [check_range] in Hc. apply andb_true_iff in Hc as [Hz0 Hrest].
  destruct (Z.eq_dec z z0) as [->|Hne]; [exact Hz0|].
  apply (IH (Z.succ z0) Hrest). lia.
Qed.

Lemma check_u8 (P : Z -> bool) :
  check_range P 256 0 = true -> forall b, is_u8 b -> P b = true.
Proof.
  intros Hc b Hb. apply (check_range_sound P 256 0 Hc).
  unfold is_u8 in Hb. lia.
Qed.

(** ** The lookup tables *)

Lemma mirror_u8 (b : Z) : is_u8 b -> is_u8 (mirror b).
Proof.
  intros Hb.
  pose proof (check_u8 (fun b => (0 <=? mirror b) && (mirror b <? 256))) as H.
  specialize (H ltac:(vm_compute; reflexivity) b Hb). cbv beta in H.
  apply andb_true_iff in H as [H1 H2]. unfold is_u8. lia.
Qed.

Lemma mirror_mirror (b : Z) : is_u8 b -> mirror (mirror b) = b.
Proof.
  intros Hb.
  pose proof (check_u8 (fun b => mirror (mirror b) =? b)) as H.
  specialize (H ltac:(vm_compute; reflexivity) b Hb). cbv beta in H.
  lia.
Qed.

(** C5. For every byte [b], [oddparity b] is 1 when the number of bits set
    in [b] is even and 0 when it is odd, so that the bits of [b] together
    with the parity bit always hold an odd number of ones. *)
Theorem oddparity_popcount (b : Z) :
  is_u8 b ->
  oddparity b = (if Nat.even (popcount b) then 1 else 0)
  /\ Nat.odd (popcount b + Z.to_nat (oddparity b)) = true.
Proof.
  intros Hb.
  pose proof (check_u8 (fun b =>
    (oddparity b =? (if Nat.even (popcount b) then 1 else 0))
    && Nat.odd (popcount b + Z.to_nat (oddparity b)))) as H.
  specialize (H ltac:(vm_compute; reflexivity) b Hb). cbv beta in H.
  apply andb_true_iff in H as [H1 H2]. split; [lia | exact H2].
Qed.

Lemma oddparity_popcount_witness :
  is_u8 0x26
  /\ oddparity 0x26 = (if Nat.even (popcount 0x26) then 1 else 0)
  /\ Nat.odd (popcount 0x26 + Z.to_nat (oddparity 0x26)) = true.
Proof.
  split; [unfold is_u8; lia | apply (oddparity_popcount 0x26); unfold is_u8; lia].
Defined.

(** ** Arrays *)

Lemma load_middle (pre post : list Z) (d : Z) :
  load (pre ++ d :: post) (length pre) = Ok d.
Proof. unfold load. rewrite list_lookup_middle; reflexivity. Qed.

Lemma store_middle (pre post : list Z) (d v : Z) :
  store (pre ++ d :: post) (length pre) v = Ok (pre ++ v :: post).
Proof.
  unfold store. rewrite decide_True.
  - replace (length pre) with (length pre + 0)%nat at 1 by lia.
    rewrite insert_app_r. reflexivity.
  - rewrite length_app. cbn. lia.
Qed.

Lemma mirror_bytes_loop_spec (mid : list Z) :
  forall pre post,
  mirror_bytes_loop (length mid) (pre ++ mid ++ post) (length pre)
  = Ok (pre ++ map mirror mid ++ post).
Proof.
  induction mid as [|d mid IH]; intros pre post; [reflexivity|].
  cbn [length mirror_bytes_loop app map].
  rewrite load_middle. cbn [obind]. rewrite store_middle. cbn [obind].
  specialize (IH (pre ++ [table_get ByteMirror d]) post).
  rewrite length_app, Nat.add_1_r, <- !app_assoc in IH. exact IH.
Qed.

Lemma mirror_bytes_spec (pbts : list Z) (uiLen : Z) :
  0 <= uiLen <= Z.of_nat (length pbts) ->
  mirror_bytes pbts uiLen
  = Ok (map mirror (take (Z.to_nat uiLen) pbts) ++ drop (Z.to_nat uiLen) pbts).
Proof.
  intros Hlen. unfold mirror_bytes.
  rewrite <- (take_drop (Z.to_nat uiLen) pbts) at 1.
  pose proof (mirror_bytes_loop_spec (take (Z.to_nat uiLen) pbts) [] (drop (Z.to_nat uiLen) pbts)) as H.
  rewrite length_take, Nat.min_l in H by lia. exact H.
Qed.

(** C6. Mirroring is an involution: on every byte, and on every array whose
    first [uiLen] bytes [mirror_bytes] is applied to twice. *)
Theorem mirror_involution (b : Z) (pbts : list Z) (uiLen : Z) :
  is_u8 b ->
  Forall is_u8 pbts ->
  0 <= uiLen <= Z.of_nat (length pbts) ->
  mirror (mirror b) = b
  /\ exists pbts', mirror_bytes pbts uiLen = Ok pbts'
                   /\ mirror_bytes pbts' uiLen = Ok pbts.
Proof.
  intros Hb Hbytes Hlen. split; [apply mirror_mirror, Hb|].
  eexists. split; [apply mirror_bytes_spec, Hlen|].
  set (n := Z.to_nat uiLen).
  assert (Hn : length (map mirror (take n pbts)) = n).
  { rewrite length_map, length_take. lia. }
  rewrite mirror_bytes_spec by (rewrite length_app, Hn; lia).
  fold n. rewrite take_app_length', drop_app_length' by (symmetry; exact Hn).
  assert (Hinv : map mirror (map mirror (take n pbts)) = take n pbts).
  { rewrite map_map. rewrite <- (map_id (take n pbts)) at 2.
    apply map_ext_in. intros a Ha. apply mirror_mirror.
    rewrite Forall_forall in Hbytes. apply Hbytes.
    apply list_elem_of_In in Ha.
    apply list_elem_of_lookup in Ha as [i Hi].
    apply lookup_take_Some in Hi as [Hi _].
    apply list_elem_of_lookup. eauto. }
  rewrite Hinv, take_drop. reflexivity.
Qed.

Lemma mirror_involution_witness :
  is_u8 0x26
  /\ Forall is_u8 [0x93; 0x20; 0x01]
  /\ 0 <= 2 <= Z.of_nat (length [0x93; 0x20; 0x01])
  /\ mirror (mirror 0x26) = 0x26
  /\ exists pbts', mirror_bytes [0x93; 0x20; 0x01] 2 = Ok pbts'
                   /\ mirror_bytes pbts' 2 = Ok [0x93; 0x20; 0x01].
Proof.
  assert (H1 : is_u8 0x26) by (unfold is_u8; lia).
  assert (H2 : Forall is_u8 [0x93; 0x20; 0x01])
    by (repeat constructor; unfold is_u8; lia).
  assert (H3 : 0 <= 2 <= Z.of_nat (length [0x93; 0x20; 0x01])) by (cbn; lia).
  split; [exact H1|]. split; [exact H2|]. split; [exact H3|].
  exact (mirror_involution 0x26 [0x93; 0x20; 0x01] 2 H1 H2 H3).
Defined.

(** ** Byte order *)

Lemma land_byte_mask (x k : Z) :
  0 <= k -> Z.land x (Z.shiftl 255 k) = ((x / 2 ^ k) mod 256) * 2 ^ k.
Proof.
  intros Hk.
  rewrite <- Z.shiftl_mul_pow2, <- Z.shiftr_div_pow2 by exact Hk.
  change 256 with (2 ^ 8). rewrite <- Z.land_ones by lia.
  apply Z.bits_inj'. intros n Hn.
  rewrite Z.land_spec.
  destruct (Z.lt_ge_cases n k) as [Hlt|Hge].
  - rewrite !Z.shiftl_spec_low by exact Hlt. apply andb_false_r.
  - rewrite !Z.shiftl_spec by exact Hn.
    rewrite Z.land_spec, Z.shiftr_spec by lia.
    replace (n - k + k) with n by lia. reflexivity.
Qed.

Lemma byte_field_shiftl (x k s : Z) :
  0 <= k -> 0 <= s ->
  Z.shiftl (Z.land x (Z.shiftl 255 k)) s = ((x / 2 ^ k) mod 256) * 2 ^ (k + s).
Proof.
  intros Hk Hs. rewrite land_byte_mask, Z.shiftl_mul_pow2 by lia.
  rewrite Z.pow_add_r by lia. ring.
Qed.

Lemma byte_field_shiftr (x k s : Z) :
  0 <= s <= k ->
  Z.shiftr (Z.land x (Z.shiftl 255 k)) s = ((x / 2 ^ k) mod 256) * 2 ^ (k - s).
Proof.
  intros Hs. rewrite land_byte_mask, Z.shiftr_div_pow2 by lia.
  replace (2 ^ k) with (2 ^ (k - s) * 2 ^ s) at 2
    by (rewrite <- Z.pow_add_r by lia; f_equal; lia).
  rewrite Z.mul_assoc, Z.div_mul; [reflexivity|].
  apply Z.pow_nonzero; lia.
Qed.

Lemma of_to_bytes_le (n : nat) :
  forall x, 0 <= x < 256 ^ Z.of_nat n -> of_bytes_le (to_bytes_le n x) = x.
Proof.
  induction n as [|n IH]; intros x Hx.
  - cbn in *. lia.
  - cbn [to_bytes_le of_bytes_le]. rewrite IH.
    + pose proof (Z.div_mod x 256). lia.
    + rewrite Nat2Z.inj_succ, Z.pow_succ_r in Hx by lia.
      split; [apply Z.div_pos; lia|apply Z.div_lt_upper_bound; lia].
Qed.

Lemma to_of_bytes_le (l : list Z) :
  Forall is_u8 l -> to_bytes_le (length l) (of_bytes_le l) = l.
Proof.
  induction 1 as [|b l Hb _ IH]; [reflexivity|].
  cbn [length to_bytes_le of_bytes_le]. unfold is_u8 in Hb.
  assert (Hdm : (b + 256 * of_bytes_le l) mod 256 = b
                /\ (b + 256 * of_bytes_le l) / 256 = of_bytes_le l).
  { generalize (of_bytes_le l). intros r. Z.div_mod_to_equations. lia. }
  destruct Hdm as [-> ->]. rewrite IH. reflexivity.
Qed.

Lemma to_bytes_le_u8 (n : nat) : forall x, Forall is_u8 (to_bytes_le n x).
Proof.
  induction n as [|n IH]; intros x; constructor; [|apply IH].
  unfold is_u8. apply Z.mod_pos_bound. lia.
Qed.

Lemma length_to_bytes_le (n : nat) : forall x, length (to_bytes_le n x) = n.
Proof. induction n as [|n IH]; intros x; cbn; [reflexivity|f_equal; apply IH]. Qed.

Ltac norm_consts :=
  repeat match goal with
  | |- context [2 ^ ?n] => let v := eval vm_compute in (2 ^ n) in change (2 ^ n) with v
  | |- context [Zpos ?a * Zpos ?b] =>
      let v := eval vm_compute in (Zpos a * Zpos b) in change (Zpos a * Zpos b) with v
  | |- context [Zpos ?a + Zpos ?b] =>
      let v := eval vm_compute in (Zpos a + Zpos b) in change (Zpos a + Zpos b) with v
  | |- context [Zpos ?a - Zpos ?b] =>
      let v := eval vm_compute in (Zpos a - Zpos b) in change (Zpos a - Zpos b) with v
  end.

Ltac byte_bounds :=
  repeat match goal with
  | |- context [?a mod 256] =>
      lazymatch goal with
      | _ : 0 <= a mod 256 < 256 |- _ => fail
      | _ => pose proof (Z.mod_pos_bound a 256 ltac:(lia))
      end
  end.

(** [swap_endian32] and [swap_endian64] reverse the bytes of their
    argument. *)
Lemma swap_endian32_rev (x : Z) :
  swap_endian32 x = of_bytes_le (rev (to_bytes_le 4 x)).
Proof.
  unfold swap_endian32.
  change 0xFF with (Z.shiftl 255 0). 
  change 0xFF00 with (Z.shiftl 255 8). change 0xFF0000 with (Z.shiftl 255 16).
  change 0xFF000000 with (Z.shiftl 255 24).
  rewrite (byte_field_shiftl x 0 24), (byte_field_shiftl x 8 8) by lia.
  rewrite (byte_field_shiftr x 16 8), (byte_field_shiftr x 24 24) by lia.
  cbn [to_bytes_le rev of_bytes_le app].
  rewrite !Z.div_div by lia.
  change (2 ^ 0) with 1. rewrite Z.div_1_r.
  unfold u32. norm_consts. byte_bounds.
  repeat match goal with
  | |- context [?a mod 4294967296] => rewrite (Z.mod_small a 4294967296) by lia
  end.
  lia.
Qed.

Lemma swap_endian64_rev (x : Z) :
  swap_endian64 x = of_bytes_le (rev (to_bytes_le 8 x)).
Proof.
  unfold swap_endian64.
  change 0xFF with (Z.shiftl 255 0).
  change 0xFF00 with (Z.shiftl 255 8). change 0xFF0000 with (Z.shiftl 255 16).
  change 0xFF000000 with (Z.shiftl 255 24).
  change 0xFF00000000 with (Z.shiftl 255 32).
  change 0xFF0000000000 with (Z.shiftl 255 40).
  change 0xFF000000000000 with (Z.shiftl 255 48).
  change 0xFF00000000000000 with (Z.shiftl 255 56).
  rewrite (byte_field_shiftl x 0 56), (byte_field_shiftl x 8 40),
    (byte_field_shiftl x 16 24), (byte_field_shiftl x 24 8) by lia.
  rewrite (byte_field_shiftr x 32 8), (byte_field_shiftr x 40 24),
    (byte_field_shiftr x 48 40), (byte_field_shiftr x 56 56) by lia.
  cbn [to_bytes_le rev of_bytes_le app].
  rewrite !Z.div_div by lia.
  change (2 ^ 0) with 1. rewrite Z.div_1_r.
  unfold u64. norm_consts. byte_bounds.
  repeat match goal with
  | |- context [?a mod 18446744073709551616] =>
      rewrite (Z.mod_small a 18446744073709551616) by lia
  end.
  lia.
Qed.

Lemma swap_rev_involution (n : nat) (x : Z) :
  0 <= x < 256 ^ Z.of_nat n ->
  of_bytes_le (rev (to_bytes_le n (of_bytes_le (rev (to_bytes_le n x))))) = x.
Proof.
  intros Hx.
  pose proof (to_of_bytes_le (rev (to_bytes_le n x))) as H.
  rewrite length_rev, length_to_bytes_le in H.
  rewrite H, rev_involutive, of_to_bytes_le; [reflexivity|exact Hx|].
  apply Forall_rev, to_bytes_le_u8.
Qed.

(** C7. Swapping the byte order twice gives the value back, for every
    32-bit value and for every 64-bit value. *)
Theorem swap_endian_involution (x y : Z) :
  is_u32 x -> is_u64 y ->
  swap_endian32 (swap_endian32 x) = x /\ swap_endian64 (swap_endian64 y) = y.
Proof.
  intros Hx Hy. split.
  - rewrite !swap_endian32_rev. apply swap_rev_involution. exact Hx.
  - rewrite !swap_endian64_rev. apply swap_rev_involution. exact Hy.
Qed.

Lemma swap_endian_involution_witness :
  is_u32 0x12345678 /\ is_u64 0x0123456789abcdef
  /\ swap_endian32 (swap_endian32 0x12345678) = 0x12345678
  /\ swap_endian64 (swap_endian64 0x0123456789abcdef) = 0x0123456789abcdef.
Proof.
  assert (H1 : is_u32 0x12345678) by (unfold is_u32; lia).
  assert (H2 : is_u64 0x0123456789abcdef) by (unfold is_u64; lia).
  split; [exact H1|]. split; [exact H2|].
  exact (swap_endian_involution 0x12345678 0x0123456789abcdef H1 H2).
Defined.

(** ** The CRC *)

Lemma lxor_bound (a b n : Z) :
  0 <= n -> 0 <= a < 2 ^ n -> 0 <= b < 2 ^ n -> 0 <= Z.lxor a b < 2 ^ n.
Proof.
  intros Hn Ha Hb.
  assert (H0 : 0 <= Z.lxor a b) by (apply Z.lxor_nonneg; lia).
  split; [exact H0|].
  destruct (Z.eq_dec (Z.lxor a b) 0) as [->|Hne]; [apply Z.pow_pos_nonneg; lia|].
  assert (Hn' : 0 < n).
  { destruct (Z.eq_dec n 0) as [->|]; [|lia].
    assert (a = 0) by (change (2 ^ 0) with 1 in Ha; lia).
    assert (b = 0) by (change (2 ^ 0) with 1 in Hb; lia).
    subst. contradiction Hne. reflexivity. }
  apply Z.log2_lt_pow2; [lia|].
  pose proof (Z.log2_lxor a b ltac:(lia) ltac:(lia)) as Hl.
  assert (Hla : Z.log2 a < n).
  { destruct (Z.eq_dec a 0) as [->|]; [cbn; lia|]. apply Z.log2_lt_pow2; lia. }
  assert (Hlb : Z.log2 b < n).
  { destruct (Z.eq_dec b 0) as [->|]; [cbn; lia|]. apply Z.log2_lt_pow2; lia. }
  lia.
Qed.

Lemma u8_small (z : Z) : is_u8 z -> u8 z = z.
Proof. intros H. apply Z.mod_small. exact H. Qed.

Lemma land_FF (z : Z) : Z.land z 0xFF = z mod 256.
Proof. change 0xFF with (Z.ones 8). rewrite Z.land_ones by lia. reflexivity. Qed.

Lemma u8_land_FF (z : Z) : u8 (Z.land z 0xFF) = Z.land z 0xFF.
Proof.
  rewrite land_FF. unfold u8. change (2 ^ 8) with 256.
  apply Z.mod_mod. lia.
Qed.

Lemma land_lxor_distr_l (a b c : Z) :
  Z.land (Z.lxor a b) c = Z.lxor (Z.land a c) (Z.land b c).
Proof.
  apply Z.bits_inj'. intros n _.
  rewrite Z.lxor_spec, !Z.land_spec, Z.lxor_spec.
  destruct (Z.testbit a n), (Z.testbit b n), (Z.testbit c n); reflexivity.
Qed.

(** The body of the loop only looks at [wCrc ^ bt]. *)
Lemma crc_body_lxor (bt wCrc : Z) :
  is_u8 bt -> crc_body bt wCrc = crc_body 0 (Z.lxor wCrc bt).
Proof.
  intros Hbt. unfold crc_body.
  assert (H1 : Z.lxor bt (u8 (Z.land wCrc 255))
               = Z.lxor 0 (u8 (Z.land (Z.lxor wCrc bt) 255))).
  { rewrite Z.lxor_0_l, !u8_land_FF, land_lxor_distr_l.
    rewrite (land_FF bt), (Z.mod_small bt 256) by exact Hbt.
    apply Z.lxor_comm. }
  assert (H2 : Z.shiftr (Z.lxor wCrc bt) 8 = Z.shiftr wCrc 8).
  { rewrite Z.shiftr_lxor, (Z.shiftr_div_pow2 bt) by lia.
    rewrite (Z.div_small bt) by exact Hbt. apply Z.lxor_0_r. }
  rewrite H1, H2. reflexivity.
Qed.

Lemma crc_body_table :
  forall x, 0 <= x < 65536 ->
  ((crc_body 0 x =? Nat.iter 8 (crc16_shift 0x8408) x)
   && (0 <=? crc_body 0 x) && (crc_body 0 x <? 65536)) = true.
Proof.
  intros x Hx.
  apply (check_range_sound
           (fun x => (crc_body 0 x =? Nat.iter 8 (crc16_shift 0x8408) x)
                     && (0 <=? crc_body 0 x) && (crc_body 0 x <? 65536))
           (Z.to_nat 65536) 0).
  - vm_compute. reflexivity.
  - rewrite Z2Nat.id; lia.
Qed.

Lemma crc_body_crc16 (bt wCrc : Z) :
  is_u8 bt -> is_u16 wCrc ->
  crc_body bt wCrc = crc16_byte 0x8408 wCrc bt /\ is_u16 (crc_body bt wCrc).
Proof.
  intros Hbt Hw. rewrite crc_body_lxor by exact Hbt. unfold crc16_byte.
  assert (Hx : 0 <= Z.lxor wCrc bt < 65536).
  { apply (lxor_bound wCrc bt 16); unfold is_u8, is_u16 in *; lia. }
  pose proof (crc_body_table _ Hx) as H.
  apply andb_true_iff in H as [H H3]. apply andb_true_iff in H as [H1 H2].
  unfold is_u16. split; lia.
Qed.

Lemma crc_loop_spec (data : list Z) :
  forall fuel pre post wCrc,
  data <> [] ->
  Z.of_nat (length data) < 2 ^ 32 ->
  (length data <= fuel)%nat ->
  crc_loop fuel (pre ++ data ++ post) (length pre) wCrc (Z.of_nat (length data))
  = Ok ((length pre + length data)%nat, crc_fold data wCrc).
Proof.
  induction data as [|d data IH]; intros fuel pre post wCrc Hne Hlen Hfuel;
    [contradiction|].
  destruct fuel as [|fuel]; [cbn in Hfuel; lia|].
  cbn [crc_loop app]. rewrite load_middle. cbn [obind].
  destruct (decide (data = [])) as [->|Hne'].
  - cbn. rewrite Nat.add_1_r. reflexivity.
  - assert (Hpos : (0 < length data)%nat) by (destruct data; [congruence|cbn; lia]).
    assert (Hdec : u32 (Z.of_nat (length (d :: data)) - 1) = Z.of_nat (length data)).
    { cbn [length] in *. unfold u32. rewrite Z.mod_small; lia. }
    rewrite Hdec.
    destruct (Z.eqb_spec (Z.of_nat (length data)) 0) as [H0|_]; [lia|].
    specialize (IH fuel (pre ++ [d]) post (crc_body d wCrc) Hne').
    rewrite length_app, <- app_assoc in IH. cbn [length app] in IH.
    rewrite Nat.add_1_r in IH. rewrite IH.
    + cbn [length crc_fold fold_left]. f_equal. f_equal. lia.
    + cbn [length] in *. lia.
    + cbn [length] in *. lia.
Qed.

Lemma crc_fold_crc16 (data : list Z) :
  forall wCrc, Forall is_u8 data -> is_u16 wCrc ->
  crc_fold data wCrc = crc16 0x8408 wCrc data /\ is_u16 (crc_fold data wCrc).
Proof.
  induction data as [|d data IH]; intros wCrc Hd Hw; [split; [reflexivity|exact Hw]|].
  apply Forall_cons in Hd as [Hd Hdata].
  destruct (crc_body_crc16 d wCrc Hd Hw) as [Heq Hr].
  unfold crc_fold, crc16. cbn [fold_left]. rewrite <- Heq.
  apply IH; assumption.
Qed.

Lemma crc_bytes (w : Z) :
  is_u16 w ->
  u8 (Z.land w 0xFF) = w mod 256 /\ u8 (Z.land (Z.shiftr w 8) 0xFF) = w / 256.
Proof.
  intros Hw. rewrite !u8_land_FF, !land_FF, Z.shiftr_div_pow2 by lia.
  change (2 ^ 8) with 256. split; [reflexivity|].
  apply Z.mod_small. unfold is_u16 in Hw. change (2 ^ 16) with 65536 in Hw.
  split; [apply Z.div_pos; lia|apply Z.div_lt_upper_bound; lia].
Qed.

(** C2 (amended). For every range of [uiLen >= 1] bytes,
    [append_iso14443a_crc] computes the CRC-A of ISO14443-A, the reflected
    16-bit CRC with polynomial 0x8408 and initial value 0x6363, over the
    [uiLen] bytes of data, and writes it right after them, low byte first
    and high byte second. *)
Theorem append_iso14443a_crc_is_crc_a (data rest : list Z) (x y : Z) (fuel : nat) :
  Forall is_u8 data ->
  data <> [] ->
  Z.of_nat (length data) < 2 ^ 32 ->
  (length data <= fuel)%nat ->
  append_iso14443a_crc fuel (data ++ x :: y :: rest) (Z.of_nat (length data))
  = Ok (data ++ crc_a data mod 256 :: crc_a data / 256 :: rest)
  /\ 0 <= crc_a data < 2 ^ 16.
Proof.
  intros Hd Hne Hlen Hfuel. unfold append_iso14443a_crc.
  pose proof (crc_loop_spec data fuel [] (x :: y :: rest) 0x6363 Hne Hlen Hfuel) as Hloop.
  cbn [app length] in Hloop. rewrite Hloop. cbn [obind fst snd Nat.add].
  destruct (crc_fold_crc16 data 0x6363 Hd) as [Hcrc Hr];
    [unfold is_u16; lia|].
  fold (crc_a data) in Hcrc. rewrite Hcrc in *.
  destruct (crc_bytes _ Hr) as [-> ->].
  rewrite store_middle. cbn [obind].
  replace (S (length data)) with (length (data ++ [crc_a data mod 256]))
    by (rewrite length_app; cbn; lia).
  replace (data ++ crc_a data mod 256 :: y :: rest)
    with ((data ++ [crc_a data mod 256]) ++ y :: rest)
    by (rewrite <- app_assoc; reflexivity).
  rewrite store_middle, <- app_assoc. split; [reflexivity|exact Hr].
Qed.

(** With more iterations to go than bytes left, the loop leaves the array. *)
Lemma crc_loop_overrun (fuel : nat) (mem : list Z) :
  Z.of_nat (length mem) < 2 ^ 32 ->
  forall p wCrc c,
  0 <= c < 2 ^ 32 ->
  Z.of_nat (length mem) - Z.of_nat p < (if c =? 0 then 2 ^ 32 else c) ->
  (forall r, crc_loop fuel mem p wCrc c <> Ok r)
  /\ ((length mem - p < fuel)%nat -> crc_loop fuel mem p wCrc c = Fault).
Proof.
  intros Hmem. induction fuel as [|fuel IH]; intros p wCrc c Hc Hover.
  - split; [discriminate|lia].
  - cbn [crc_loop]. unfold load. destruct (mem !! p) as [bt|] eqn:Hbt; cbn [obind].
    + apply lookup_lt_Some in Hbt.
      assert (Hc' : 0 <= u32 (c - 1) < 2 ^ 32) by (apply Z.mod_pos_bound; lia).
      assert (Hnext : Z.of_nat (length mem) - Z.of_nat (S p)
                      < (if u32 (c - 1) =? 0 then 2 ^ 32 else u32 (c - 1))
                      /\ u32 (c - 1) <> 0).
      { unfold u32. revert Hover. destruct (Z.eqb_spec c 0) as [->|Hc0]; intros Hover.
        - change ((0 - 1) mod 2 ^ 32) with (2 ^ 32 - 1).
          change (2 ^ 32 - 1 =? 0) with false. cbv iota. lia.
        - rewrite Z.mod_small by lia.
          destruct (Z.eqb_spec (c - 1) 0); lia. }
      destruct Hnext as [Hnext Hne].
      destruct (Z.eqb_spec (u32 (c - 1)) 0) as [H0|_]; [contradiction|].
      destruct (IH (S p) (crc_body bt wCrc) (u32 (c - 1)) Hc') as [IH1 IH2].
      * destruct (Z.eqb_spec (u32 (c - 1)) 0); [contradiction|exact Hnext].
      * split; [exact IH1|]. intros Hf. apply IH2. lia.
    + split; [discriminate|reflexivity].
Qed.

(** C10. For every length [uiLen >= 1], [append_iso14443a_crc] returns:
    its loop ends after reading exactly the [uiLen] bytes of the data, and
    the two bytes of the register are stored right after them.  For
    [uiLen = 0] it does not: the body runs before the counter is tested, the
    byte at offset 0 is read, the counter wraps to [2^32 - 1] and the loop
    goes on, beyond the end of any array of less than [2^32] bytes. *)
Theorem append_iso14443a_crc_terminates (mem : list Z) (uiLen wCrc : Z) (fuel : nat)
    (mem0 : list Z) (fuel0 : nat) :
  1 <= uiLen < 2 ^ 32 ->
  uiLen + 2 <= Z.of_nat (length mem) ->
  (Z.to_nat uiLen <= fuel)%nat ->
  Z.of_nat (length mem0) < 2 ^ 32 ->
  (length mem0 < fuel0)%nat ->
  crc_loop fuel mem 0 wCrc uiLen
    = Ok (Z.to_nat uiLen, crc_fold (take (Z.to_nat uiLen) mem) wCrc)
  /\ append_iso14443a_crc fuel mem uiLen
     = Ok (<[S (Z.to_nat uiLen) :=
              u8 (Z.land (Z.shiftr (crc_fold (take (Z.to_nat uiLen) mem) 0x6363) 8) 0xFF)]>
           (<[Z.to_nat uiLen :=
                u8 (Z.land (crc_fold (take (Z.to_nat uiLen) mem) 0x6363) 0xFF)]> mem))
  /\ append_iso14443a_crc fuel0 mem0 0 = Fault
  /\ (forall f r, append_iso14443a_crc f mem0 0 <> Ok r)
  /\ crc_loop fuel0 mem0 0 wCrc 0 = Fault
  /\ (forall f r, crc_loop f mem0 0 wCrc 0 <> Ok r)
  /\ (forall f bt, mem0 !! 0%nat = Some bt ->
        crc_loop (S f) mem0 0 wCrc 0
        = crc_loop f mem0 1 (crc_body bt wCrc) (2 ^ 32 - 1)).
Proof.
  intros Hlen Hmem Hfuel Hmem0 Hfuel0.
  assert (Hloop : forall w, crc_loop fuel mem 0 w uiLen
            = Ok (Z.to_nat uiLen, crc_fold (take (Z.to_nat uiLen) mem) w)).
  { intros w.
    pose proof (crc_loop_spec (take (Z.to_nat uiLen) mem) fuel []
                  (drop (Z.to_nat uiLen) mem) w) as H.
    rewrite length_take, Nat.min_l, Z2Nat.id in H by lia.
    cbn [app length Nat.add] in H. rewrite take_drop in H. apply H; [|lia|lia].
    intros Hnil. apply (f_equal length) in Hnil.
    rewrite length_take in Hnil. cbn in Hnil. lia. }
  assert (Hover : forall w f, (forall r, crc_loop f mem0 0 w 0 <> Ok r)
                              /\ ((length mem0 < f)%nat -> crc_loop f mem0 0 w 0 = Fault)).
  { intros w f.
    destruct (crc_loop_overrun f mem0 Hmem0 0%nat w 0) as [H1 H2]; [lia|cbn; lia|].
    split; [exact H1|]. intros Hf. apply H2. lia. }
  split; [apply Hloop|]. split; [|split; [|split; [|split; [|split]]]].
  - unfold append_iso14443a_crc. rewrite Hloop. cbn [obind fst snd].
    unfold store. rewrite decide_True by lia. cbn [obind].
    rewrite decide_True by (rewrite length_insert; lia). reflexivity.
  - unfold append_iso14443a_crc.
    destruct (Hover 0x6363 fuel0) as [_ HF]. rewrite (HF Hfuel0). reflexivity.
  - intros f r. unfold append_iso14443a_crc.
    destruct (Hover 0x6363 f) as [Hno _].
    destruct (crc_loop f mem0 0 0x6363 0) as [p| |]; cbn [obind];
      [contradiction (Hno p eq_refl)|discriminate|discriminate].
  - apply Hover, Hfuel0.
  - intros f. apply Hover.
  - intros f bt Hbt. cbn [crc_loop]. unfold load. rewrite Hbt. reflexivity.
Qed.

Lemma append_iso14443a_crc_is_crc_a_witness :
  Forall is_u8 [0x93; 0x70]
  /\ [0x93; 0x70] <> []
  /\ Z.of_nat (length [0x93; 0x70]) < 2 ^ 32
  /\ (length [0x93; 0x70] <= 2)%nat
  /\ append_iso14443a_crc 2 ([0x93; 0x70] ++ 0 :: 0 :: [0xAA])
                           (Z.of_nat (length [0x93; 0x70]))
     = Ok ([0x93; 0x70] ++ crc_a [0x93; 0x70] mod 256 :: crc_a [0x93; 0x70] / 256 :: [0xAA])
  /\ 0 <= crc_a [0x93; 0x70] < 2 ^ 16.
Proof.
  assert (H1 : Forall is_u8 [0x93; 0x70]) by (repeat constructor; unfold is_u8; lia).
  assert (H2 : [0x93; 0x70] <> []) by discriminate.
  assert (H3 : Z.of_nat (length [0x93; 0x70]) < 2 ^ 32) by (cbn; lia).
  assert (H4 : (length [0x93; 0x70] <= 2)%nat) by (cbn; lia).
  split; [exact H1|]. split; [exact H2|]. split; [exact H3|]. split; [exact H4|].
  exact (append_iso14443a_crc_is_crc_a [0x93; 0x70] [0xAA] 0 0 2 H1 H2 H3 H4).
Defined.

Lemma append_iso14443a_crc_terminates_witness :
  1 <= 2 < 2 ^ 32
  /\ 2 + 2 <= Z.of_nat (length [0x93; 0x70; 0; 0])
  /\ (Z.to_nat 2 <= 2)%nat
  /\ Z.of_nat (length [0x08; 0; 0]) < 2 ^ 32
  /\ (length [0x08; 0; 0] < 4)%nat
  /\ crc_loop 2 [0x93; 0x70; 0; 0] 0 0x6363 2
     = Ok (Z.to_nat 2, crc_fold (take (Z.to_nat 2) [0x93; 0x70; 0; 0]) 0x6363)
  /\ append_iso14443a_crc 2 [0x93; 0x70; 0; 0] 2
     = Ok (<[S (Z.to_nat 2) :=
              u8 (Z.land (Z.shiftr
                    (crc_fold (take (Z.to_nat 2) [0x93; 0x70; 0; 0]) 0x6363) 8) 0xFF)]>
           (<[Z.to_nat 2 :=
                u8 (Z.land (crc_fold (take (Z.to_nat 2) [0x93; 0x70; 0; 0]) 0x6363) 0xFF)]>
              [0x93; 0x70; 0; 0]))
  /\ append_iso14443a_crc 4 [0x08; 0; 0] 0 = Fault
  /\ (forall f r, append_iso14443a_crc f [0x08; 0; 0] 0 <> Ok r)
  /\ crc_loop 4 [0x08; 0; 0] 0 0x6363 0 = Fault
  /\ (forall f r, crc_loop f [0x08; 0; 0] 0 0x6363 0 <> Ok r)
  /\ (forall f bt, [0x08; 0; 0] !! 0%nat = Some bt ->
        crc_loop (S f) [0x08; 0; 0] 0 0x6363 0
        = crc_loop f [0x08; 0; 0] 1 (crc_body bt 0x6363) (2 ^ 32 - 1)).
Proof.
  assert (H1 : 1 <= 2 < 2 ^ 32) by lia.
  assert (H2 : 2 + 2 <= Z.of_nat (length [0x93; 0x70; 0; 0])) by (cbn; lia).
  assert (H3 : (Z.to_nat 2 <= 2)%nat) by (cbn; lia).
  assert (H4 : Z.of_nat (length [0x08; 0; 0]) < 2 ^ 32) by (cbn; lia).
  assert (H5 : (length [0x08; 0; 0] < 4)%nat) by (cbn; lia).
  split; [exact H1|]. split; [exact H2|]. split; [exact H3|].
  split; [exact H4|]. split; [exact H5|].
  exact (append_iso14443a_crc_terminates [0x93; 0x70; 0; 0] 2 0x6363 2 [0x08; 0; 0] 4
           H1 H2 H3 H4 H5).
Defined.

(** C2, as stated, fails on the empty range: the checksum of no byte is the
    initial value 63 63, but for [uiLen = 0] the function does not write it
    at the start of the array; it reads the whole array and runs off its
    end. *)
Lemma append_iso14443a_crc_empty_range :
  crc_a [] = 0x6363
  /\ append_iso14443a_crc 4 ([] ++ 0 :: 0 :: [0]) (Z.of_nat (length ([] : list Z)))
     = Fault
  /\ append_iso14443a_crc 4 ([] ++ 0 :: 0 :: [0]) (Z.of_nat (length ([] : list Z)))
     <> Ok ([] ++ crc_a [] mod 256 :: crc_a [] / 256 :: [0])
  /\ (forall fuel r,
        append_iso14443a_crc fuel ([] ++ 0 :: 0 :: [0]) (Z.of_nat (length ([] : list Z)))
        <> Ok r).
Proof.
  split; [reflexivity|]. split; [reflexivity|].
  split; [intros H; vm_compute in H; discriminate H|].
  intros fuel r. unfold append_iso14443a_crc.
  destruct (crc_loop_overrun fuel [0; 0; 0] ltac:(cbn; lia) 0%nat 0x6363 0) as [Hno _];
    [lia|cbn; lia|].
  change ([] ++ 0 :: 0 :: [0]) with [0; 0; 0].
  change (Z.of_nat (length ([] : list Z))) with 0.
  destruct (crc_loop fuel [0; 0; 0] 0 0x6363 0) as [p| |]; cbn [obind];
    [contradiction (Hno p eq_refl)|intros H; discriminate H..].
Qed.

(** ** The parity dump *)

Lemma length_append (s1 s2 : string) :
  String.length (s1 ++ s2) = (String.length s1 + String.length s2)%nat.
Proof. induction s1 as [|c s1 IH]; cbn; [reflexivity|rewrite IH; reflexivity]. Qed.

Lemma length_print_hex_par_byte (d par : Z) :
  String.length (print_hex_par_byte d par) = 4%nat.
Proof. unfold print_hex_par_byte, fmt_02x. destruct (negb _); reflexivity. Qed.

Lemma get_mark_print_hex_par_byte (d par : Z) :
  String.get 2 (print_hex_par_byte d par)
  = Some (if Z.eqb (oddparity d) par then " "%char else "!"%char).
Proof.
  unfold print_hex_par_byte, fmt_02x, oddparity.
  destruct (Z.eqb (table_get OddParity d) par); reflexivity.
Qed.

Lemma print_hex_par_loop_spec (pbtData pbtDataPar : list Z) (n : nat) :
  forall uiPos,
  (uiPos + n <= length pbtData)%nat ->
  (uiPos + n <= length pbtDataPar)%nat ->
  exists body,
    print_hex_par_loop n pbtData uiPos pbtDataPar = Ok body
    /\ String.length body = (4 * n)%nat
    /\ forall j k d par,
         (j < n)%nat -> (k < 4)%nat ->
         pbtData !! (uiPos + j)%nat = Some d ->
         pbtDataPar !! (uiPos + j)%nat = Some par ->
         String.get (4 * j + k) body = String.get k (print_hex_par_byte d par).
Proof.
  induction n as [|n IH]; intros uiPos Hd Hp.
  - exists EmptyString. split; [reflexivity|]. split; [reflexivity|]. intros; lia.
  - destruct (lookup_lt_is_Some_2 pbtData uiPos ltac:(lia)) as [d0 Hd0].
    destruct (lookup_lt_is_Some_2 pbtDataPar uiPos ltac:(lia)) as [p0 Hp0].
    destruct (IH (S uiPos) ltac:(lia) ltac:(lia)) as (rest & Hrest & Hlen & Hget).
    exists (print_hex_par_byte d0 p0 ++ rest)%string.
    cbn [print_hex_par_loop]. unfold load. rewrite Hd0, Hp0. cbn [obind].
    rewrite Hrest. cbn [obind]. split; [reflexivity|].
    split.
    { rewrite length_append, length_print_hex_par_byte, Hlen. lia. }
    intros j k d par Hj Hk Hdj Hpj. destruct j as [|j].
    + rewrite Nat.add_0_r in Hdj, Hpj. rewrite Hd0 in Hdj. rewrite Hp0 in Hpj.
      injection Hdj as <-. injection Hpj as <-.
      cbn [Nat.mul Nat.add]. symmetry. apply append_correct1.
      rewrite length_print_hex_par_byte. exact Hk.
    + replace (4 * S j + k)%nat
        with ((4 * j + k) + String.length (print_hex_par_byte d0 p0))%nat
        by (rewrite length_print_hex_par_byte; lia).
      rewrite <- append_correct2.
      apply Hget; [lia|exact Hk| |].
      * rewrite <- Hdj. f_equal. lia.
      * rewrite <- Hpj. f_equal. lia.
Qed.

(** C8. In what [print_hex_par] writes, the two hexadecimal digits of each
    whole byte are followed by [!] exactly when the parity byte given for
    it differs from the odd parity of the byte, and by a space exactly when
    they are equal. *)
Theorem print_hex_par_marks (pbtData pbtDataPar : list Z) (uiBits : Z) :
  0 <= uiBits ->
  (uiBits + 7) / 8 <= Z.of_nat (length pbtData) ->
  uiBits / 8 <= Z.of_nat (length pbtDataPar) ->
  exists out,
    print_hex_par pbtData uiBits pbtDataPar = Ok out
    /\ forall i d par,
         Z.of_nat i < uiBits / 8 ->
         pbtData !! i = Some d ->
         pbtDataPar !! i = Some par ->
         (String.get (4 * i + 2) out = Some "!"%char <-> oddparity d <> par)
         /\ (String.get (4 * i + 2) out = Some " "%char <-> oddparity d = par).
Proof.
  intros Hbits Hdata Hpar. unfold print_hex_par.
  assert (Hbytes : 0 <= uiBits / 8 <= (uiBits + 7) / 8
                   /\ (uiBits mod 8 <> 0 -> uiBits / 8 < (uiBits + 7) / 8))
    by (Z.div_mod_to_equations; lia).
  destruct Hbytes as [Hbytes Hpartial].
  destruct (print_hex_par_loop_spec pbtData pbtDataPar (Z.to_nat (uiBits / 8)) 0)
    as (body & Hbody & Hlen & Hget); [lia|lia|].
  rewrite Hbody. cbn [obind].
  assert (Hrest : exists rest, print_rest_bits pbtData uiBits (uiBits / 8) = Ok rest).
  { unfold print_rest_bits. destruct (Z.eqb_spec (uiBits mod 8) 0) as [H0|H0]; cbn [negb].
    - eexists; reflexivity.
    - destruct (lookup_lt_is_Some_2 pbtData (Z.to_nat (uiBits / 8))) as [d Hd].
      + specialize (Hpartial H0). lia.
      + unfold load. rewrite Hd. eexists; reflexivity. }
  destruct Hrest as [rest ->]. cbn [obind].
  eexists. split; [reflexivity|].
  intros i d par Hi Hd Hp.
  assert (Hmark : String.get (4 * i + 2) (body ++ rest ++ nl)
                  = Some (if Z.eqb (oddparity d) par then " "%char else "!"%char)).
  { rewrite <- append_correct1 by lia.
    rewrite (Hget i 2%nat d par) by (cbn [Nat.add]; first [lia|assumption]).
    apply get_mark_print_hex_par_byte. }
  rewrite Hmark.
  destruct (Z.eqb_spec (oddparity d) par) as [Heq|Hne]; split; split;
    intros H; try congruence; try reflexivity; try discriminate.
Qed.

Lemma print_hex_par_marks_witness :
  0 <= 20
  /\ (20 + 7) / 8 <= Z.of_nat (length [0x26; 0xff; 0x01])
  /\ 20 / 8 <= Z.of_nat (length [1; 1])
  /\ exists out,
       print_hex_par [0x26; 0xff; 0x01] 20 [1; 1] = Ok out
       /\ forall i d par,
            Z.of_nat i < 20 / 8 ->
            [0x26; 0xff; 0x01] !! i = Some d ->
            [1; 1] !! i = Some par ->
            (String.get (4 * i + 2) out = Some "!"%char <-> oddparity d <> par)
            /\ (String.get (4 * i + 2) out = Some " "%char <-> oddparity d = par).
Proof.
  assert (H1 : 0 <= 20) by lia.
  assert (H2 : (20 + 7) / 8 <= Z.of_nat (length [0x26; 0xff; 0x01]))
    by (vm_compute; discriminate).
  assert (H3 : 20 / 8 <= Z.of_nat (length [1; 1])) by (vm_compute; discriminate).
  split; [exact H1|]. split; [exact H2|]. split; [exact H3|].
  exact (print_hex_par_marks [0x26; 0xff; 0x01] [1; 1] 20 H1 H2 H3).
Defined.

(** ** The anti-collision responder *)

Lemma print_hex_loop_total (pbtData : list Z) (n : nat) :
  forall uiPos, (uiPos + n <= length pbtData)%nat ->
  exists body, print_hex_loop n pbtData uiPos = Ok body.
Proof.
  induction n as [|n IH]; intros uiPos Hlen; [eexists; reflexivity|].
  destruct (lookup_lt_is_Some_2 pbtData uiPos ltac:(lia)) as [d Hd].
  destruct (IH (S uiPos) ltac:(lia)) as [rest Hrest].
  cbn [print_hex_loop]. unfold load. rewrite Hd. cbn [obind]. rewrite Hrest.
  eexists; reflexivity.
Qed.

Lemma print_hex_bits_total (pbtData : list Z) (uiBits : Z) :
  0 <= uiBits -> (uiBits + 7) / 8 <= Z.of_nat (length pbtData) ->
  exists out, print_hex_bits pbtData uiBits = Ok out.
Proof.
  intros Hbits Hlen. unfold print_hex_bits.
  assert (Hbytes : 0 <= uiBits / 8 <= (uiBits + 7) / 8
                   /\ (uiBits mod 8 <> 0 -> uiBits / 8 < (uiBits + 7) / 8))
    by (Z.div_mod_to_equations; lia).
  destruct Hbytes as [Hbytes Hpartial].
  destruct (print_hex_loop_total pbtData (Z.to_nat (uiBits / 8)) 0) as [body ->]; [lia|].
  cbn [obind]. unfold print_rest_bits.
  destruct (Z.eqb_spec (uiBits mod 8) 0) as [H0|H0]; cbn [negb obind].
  - eexists; reflexivity.
  - destruct (lookup_lt_is_Some_2 pbtData (Z.to_nat (uiBits / 8))) as [d Hd].
    + specialize (Hpartial H0). lia.
    + unfold load. rewrite Hd. eexists; reflexivity.
Qed.

Lemma main_uid_loop_4 (arg : string) (l0 l1 l2 l3 l4 : Z) :
  main_uid_loop 4 0 arg (<[4%nat := 0]> [l0; l1; l2; l3; l4])
  = let v i := u8 (strtol16 (substring (i * 2) 2 arg)) in
    [v 0%nat; v 1%nat; v 2%nat; v 3%nat;
     Z.lxor (Z.lxor (Z.lxor (v 0%nat) (v 1%nat)) (v 2%nat)) (v 3%nat)].
Proof. reflexivity. Qed.

Lemma frame_at_take (mem : list Z) (bits : Z) (n : nat) :
  Z.to_nat ((bits + 7) / 8) = n -> (n <= length mem)%nat ->
  frame_at mem bits = Some (take n mem, bits).
Proof.
  intros Hn Hlen. unfold frame_at. rewrite Hn, decide_True by exact Hlen. reflexivity.
Qed.

Lemma printf_dump_total (mem : list Z) (bits : Z) (m : machine) :
  0 <= bits -> (bits + 7) / 8 <= Z.of_nat (length mem) ->
  exists out, printf_dump (print_hex_bits mem bits) m = Running (printf out m).
Proof.
  intros Hb Hl. destruct (print_hex_bits_total mem bits Hb Hl) as [out ->].
  exists out. reflexivity.
Qed.

Lemma append_assoc (s1 s2 s3 : string) : ((s1 ++ s2) ++ s3 = s1 ++ s2 ++ s3)%string.
Proof. induction s1 as [|c s1 IH]; cbn; [reflexivity|rewrite IH; reflexivity]. Qed.

Lemma append_empty_r (s : string) : (s ++ "")%string = s.
Proof. induction s as [|c s IH]; cbn; [reflexivity|rewrite IH; reflexivity]. Qed.

Ltac msimpl :=
  cbn [set_recv set_szTxBits set_pbtTx set_quiet_output set_abtUidBcc printf eprint
       transmit abtRecv szRecvBits abtAtqa abtUidBcc abtSak pbtTx szTxBits
       quiet_output stdout stderr sent rbind final deref negb
       rx_ok rx_data rx_bits tx_ok] in *.

Ltac dump_total H :=
  match goal with
  | |- context [printf_dump (print_hex_bits _ _) ?m0] =>
      let o := fresh "o" in destruct (H m0) as [o ->]
  end.

(** What one turn of the loop does when a frame was received. *)
Lemma main_loop_body_spec (e : event) (m : machine) :
  rx_ok e = true ->
  wf_event e ->
  (2 <= length (abtAtqa m))%nat ->
  (5 <= length (abtUidBcc m))%nat ->
  (3 <= length (abtSak m))%nat ->
  exists m',
    final (main_loop_body e m) = Some m'
    /\ same_identity m m'
    /\ quiet_output m' = quiet_output m
    /\ sent m' = sent m ++ reply_to m (rx_bits e)
    /\ (quiet_output m = true -> stdout m' = stdout m)
    /\ (tx_ok e = true -> main_loop_body e m = Running m' /\ stderr m' = stderr m)
    /\ exists s, stdout m' = (stdout m ++ s)%string.
Proof.
  intros Hrx [Hlen Hbits] Ha Hu Hs.
  destruct m as [recv rbits atqa uid sak ptx tbits quiet out err snt].
  destruct e as [rok rdata bits tok].
  unfold main_loop_body, main_switch, reply_to, main_reply, same_identity.
  msimpl. subst rok.
  assert (HR : forall m0, exists o,
            printf_dump (print_hex_bits rdata bits) m0 = Running (printf o m0)).
  { intros m0. apply printf_dump_total; [lia|].
    rewrite Hlen. unfold MAX_FRAME_LEN in *. Z.div_mod_to_equations. lia. }
  assert (HTa : forall m0, exists o,
            printf_dump (print_hex_bits atqa 16) m0 = Running (printf o m0)).
  { intros m0. apply printf_dump_total; [lia|]. change ((16 + 7) / 8) with 2. lia. }
  assert (HTu : forall m0, exists o,
            printf_dump (print_hex_bits uid 40) m0 = Running (printf o m0)).
  { intros m0. apply printf_dump_total; [lia|]. change ((40 + 7) / 8) with 5. lia. }
  assert (HTs : forall m0, exists o,
            printf_dump (print_hex_bits sak 24) m0 = Running (printf o m0)).
  { intros m0. apply printf_dump_total; [lia|]. change ((24 + 7) / 8) with 3. lia. }
  pose proof (frame_at_take atqa 16 2 eq_refl Ha) as Fa.
  pose proof (frame_at_take uid 40 5 eq_refl Hu) as Fu.
  pose proof (frame_at_take sak 24 3 eq_refl Hs) as Fs.
  destruct (bits =? 7); [|destruct (bits =? 16); [|destruct (bits =? 72)]];
    destruct quiet; msimpl;
    idtac.
  all: try dump_total HR; msimpl.
  all: change (16 =? 0) with false; change (40 =? 0) with false;
       change (24 =? 0) with false; change (0 =? 0) with true; msimpl.
  all: rewrite ?Fa, ?Fu, ?Fs; msimpl.
  all: destruct tok; msimpl.
  all: try (first [dump_total HTa | dump_total HTu | dump_total HTs]); msimpl.
  all: eexists; (split; [reflexivity|]); msimpl.
  all: rewrite ?app_nil_r, ?append_assoc.
  all: repeat split; try discriminate; try reflexivity.
  all: try (eexists; reflexivity).
  all: try (exists EmptyString; rewrite append_empty_r; reflexivity).
Qed.

(** One turn of the loop on a received frame, in full. *)
Lemma main_loop_body_turn (e : event) (m : machine) :
  rx_ok e = true ->
  wf_event e ->
  (2 <= length (abtAtqa m))%nat ->
  (5 <= length (abtUidBcc m))%nat ->
  (3 <= length (abtSak m))%nat ->
  exists m' r,
    print_hex_bits (rx_data e) (rx_bits e) = Ok r
    /\ same_identity m m'
    /\ quiet_output m' = quiet_output m
    /\ if rx_bits e =? 7 then turn_answered e m m' nl r (abtAtqa m) 2 16
       else if rx_bits e =? 16 then turn_answered e m m' "" r (abtUidBcc m) 5 40
       else if rx_bits e =? 72 then turn_answered e m m' "" r (abtSak m) 3 24
       else turn_ignored e m m' r.
Proof.
  intros Hrx [Hlen Hbits] Ha Hu Hs.
  destruct (print_hex_bits_total (rx_data e) (rx_bits e)) as [r Hr]; [lia| |].
  { rewrite Hlen. unfold MAX_FRAME_LEN in *. Z.div_mod_to_equations. lia. }
  destruct (print_hex_bits_total (abtAtqa m) 16) as [ta Hta];
    [lia|change ((16 + 7) / 8) with 2; lia|].
  destruct (print_hex_bits_total (abtUidBcc m) 40) as [tu Htu];
    [lia|change ((40 + 7) / 8) with 5; lia|].
  destruct (print_hex_bits_total (abtSak m) 24) as [ts Hts];
    [lia|change ((24 + 7) / 8) with 3; lia|].
  pose proof (frame_at_take (abtAtqa m) 16 2 eq_refl Ha) as Fa.
  pose proof (frame_at_take (abtUidBcc m) 40 5 eq_refl Hu) as Fu.
  pose proof (frame_at_take (abtSak m) 24 3 eq_refl Hs) as Fs.
  destruct m as [recv rbits atqa uid sak ptx tbits quiet out err snt].
  destruct e as [rok rdata bits tok].
  unfold turn_answered, turn_ignored, main_loop_body, main_switch, main_reply,
    same_identity, printf_dump.
  msimpl. subst rok.
  destruct (bits =? 7); [|destruct (bits =? 16); [|destruct (bits =? 72)]];
    destruct quiet; msimpl; rewrite ?Hr; msimpl.
  all: change (16 =? 0) with false; change (40 =? 0) with false;
       change (24 =? 0) with false; change (0 =? 0) with true; msimpl.
  all: rewrite ?Fa, ?Fu, ?Fs; msimpl.
  all: destruct tok; msimpl; rewrite ?Hta, ?Htu, ?Hts; msimpl.
  all: eexists; exists r; (split; [reflexivity|]).
  all: match goal with
       | |- ?A /\ ?B /\ ?C => assert C as HC
       end.
  all: try (eexists; (split; [reflexivity|]);
            (split; [|split; [reflexivity|]]);
            msimpl; rewrite ?append_assoc; cbn [append]; repeat split; reflexivity).
  all: try ((split; [reflexivity|]);
            msimpl; rewrite ?append_assoc; cbn [append]; repeat split; reflexivity).
  all: split; [msimpl; repeat split|split; [reflexivity|exact HC]].
Qed.

Lemma turn_answered_final (e : event) (m m' : machine) (lead r : string)
    (buf : list Z) (nbytes : nat) (bits : Z) :
  turn_answered e m m' lead r buf nbytes bits ->
  final (main_loop_body e m) = Some m'.
Proof.
  intros (t & _ & _ & H). destruct (tx_ok e); destruct H as [-> _]; reflexivity.
Qed.

Lemma turn_ignored_final (e : event) (m m' : machine) (r : string) :
  turn_ignored e m m' r -> final (main_loop_body e m) = Some m'.
Proof. intros [-> _]. reflexivity. Qed.

(** *** What the options leave in the reply buffers *)

Lemma main_options_spec (argv0 : string) (args : list string) :
  forall m m',
  main_options argv0 args m = Running m' ->
  abtAtqa m' = abtAtqa m
  /\ abtSak m' = abtSak m
  /\ match last args with
     | Some a =>
         if Z.of_nat (String.length a) =? 8
         then abtUidBcc m' = main_uid_loop 4 0 a (<[4%nat := 0]> (abtUidBcc m))
         else abtUidBcc m' = abtUidBcc m
     | None => abtUidBcc m' = abtUidBcc m
     end.
Proof.
  induction args as [|a rest IH]; intros m m' Hrun.
  - injection Hrun as <-. repeat split.
  - cbn [main_options] in Hrun.
    destruct (String.eqb_spec a "-h") as [->|Hh]; [discriminate|].
    destruct (String.eqb_spec a "-q") as [->|Hq].
    + apply IH in Hrun as (H1 & H2 & H3). msimpl.
      destruct m as [recv rbits atqa uid sak ptx tbits quiet out err snt]. msimpl.
      split; [exact H1|]. split; [exact H2|].
      destruct rest as [|b rest]; [exact H3|].
      change (last ("-q"%string :: b :: rest)) with (last (b :: rest)). exact H3.
    + destruct rest as [|b rest]; cbn [andb] in Hrun; [|discriminate].
      destruct (Z.of_nat (String.length a) =? 8) eqn:H8; [|discriminate].
      cbn [main_options] in Hrun. injection Hrun as <-.
      cbn [last]. rewrite H8.
      destruct m as [recv rbits atqa uid sak ptx tbits quiet out err snt].
      unfold main_uid. msimpl. repeat split.
Qed.

Lemma main_connect_identity (d : device) (m m' : machine) :
  main_connect d m = Running m' ->
  same_identity m m'.
Proof.
  unfold main_connect, same_identity, printf_dump.
  destruct (connect_ok d); cbn [negb]; [|discriminate].
  destruct (init_ok d); cbn [negb]; [|discriminate].
  match goal with
  | |- context [print_hex_bits ?mem ?bits] => destruct (print_hex_bits mem bits)
  end; cbn [rbind]; try discriminate.
  destruct (negb (configure_crc_ok d) || negb (configure_parity_ok d)); [discriminate|].
  intros H. injection H as <-. repeat split.
Qed.

(** One turn of the loop never writes to the reply buffers.  *)
Lemma main_loop_body_identity (e : event) (m m' : machine) :
  final (main_loop_body e m) = Some m' ->
  same_identity m m'.
Proof.
  unfold main_loop_body, main_switch, main_reply, same_identity, printf_dump.
  destruct m as [recv rbits atqa uid sak ptx tbits quiet out err snt].
  destruct e as [rok rdata bits tok]. msimpl.
  destruct rok; [|intros H; injection H as <-; repeat split].
  destruct (bits =? 7); [|destruct (bits =? 16); [|destruct (bits =? 72)]];
    destruct quiet; msimpl.
  all: try (destruct (print_hex_bits rdata bits); msimpl; try discriminate).
  all: change (16 =? 0) with false; change (40 =? 0) with false;
       change (24 =? 0) with false; change (0 =? 0) with true; msimpl.
  all: try (match goal with
            | |- context [frame_at ?mem ?b] => destruct (frame_at mem b)
            end; msimpl; try discriminate).
  all: destruct tok; msimpl.
  all: try (match goal with
            | |- context [print_hex_bits ?mem ?b] => destruct (print_hex_bits mem b)
            end; msimpl; try discriminate).
  all: intros H; injection H as <-; repeat split.
Qed.

Lemma main_loop_identity (events : list event) :
  forall m m', main_loop events m = Running m' -> same_identity m m'.
Proof.
  induction events as [|e events IH]; intros m m' Hrun.
  - injection Hrun as <-. repeat split.
  - cbn [main_loop] in Hrun.
    destruct (main_loop_body e m) as [m1| |] eqn:Hbody; cbn [rbind] in Hrun;
      try discriminate.
    assert (H1 : same_identity m m1)
      by (apply (main_loop_body_identity e); rewrite Hbody; reflexivity).
    specialize (IH m1 m' Hrun).
    destruct H1 as (A1 & B1 & C1), IH as (A2 & B2 & C2).
    repeat split; congruence.
Qed.

(** Two hexadecimal digits are read as the byte they spell. *)
Lemma strtol16_hex_pair (c1 c2 : ascii) (h1 h2 : Z) :
  hex_value c1 = Some h1 -> hex_value c2 = Some h2 ->
  strtol16 (String c1 (String c2 EmptyString)) = 16 * h1 + h2
  /\ is_u8 (16 * h1 + h2).
Proof.
  intros H1 H2.
  assert (Hc1 : isspace c1 = false /\ (code c1 =? 45) = false
                /\ (code c1 =? 43) = false /\ 0 <= h1 < 16).
  { unfold hex_value, isspace in *. 
    destruct ((48 <=? code c1) && (code c1 <=? 57)) eqn:E1;
      [injection H1 as <-; lia|].
    destruct ((97 <=? code c1) && (code c1 <=? 102)) eqn:E2;
      [injection H1 as <-; lia|].
    destruct ((65 <=? code c1) && (code c1 <=? 70)) eqn:E3;
      [injection H1 as <-; lia|discriminate]. }
  assert (Hc2 : 0 <= h2 < 16).
  { unfold hex_value in H2.
    destruct ((48 <=? code c2) && (code c2 <=? 57)) eqn:E1;
      [injection H2 as <-; lia|].
    destruct ((97 <=? code c2) && (code c2 <=? 102)) eqn:E2;
      [injection H2 as <-; lia|].
    destruct ((65 <=? code c2) && (code c2 <=? 70)) eqn:E3;
      [injection H2 as <-; lia|discriminate]. }
  destruct Hc1 as (Hs & Hm & Hp & Hh1).
  unfold strtol16. cbn [list_ascii_of_string strtol_space]. rewrite Hs, Hm, Hp.
  cbn [strtol_prefix strtol_digits]. rewrite H1, H2.
  unfold is_u8. split; lia.
Qed.

(** *** At the head of the loop

    [m] is the machine when [main] has gone through the options, set the
    device up and been round the loop for the turns of [events]. *)

Section AtLoopHead.

Variables (argv0 : string) (args : list string) (d : device).
Variables (events : list event) (m : machine).
Hypothesis Hrun : main argv0 args d events = Running m.

(** The reply buffers of a machine at the head of the loop were left by
    the options. *)
Lemma main_identity :
  exists m0, main_options argv0 args initial = Running m0 /\ same_identity m0 m.
Proof.
  pose proof Hrun as Hloop. unfold main in Hloop.
  destruct (main_options argv0 args initial) as [m0| |]; cbn [rbind] in Hloop;
    try discriminate.
  destruct (main_connect d m0) as [m1| |] eqn:Hconn; cbn [rbind] in Hloop;
    try discriminate.
  exists m0. split; [reflexivity|].
  apply main_connect_identity in Hconn. apply main_loop_identity in Hloop.
  destruct Hconn as (A1 & B1 & C1), Hloop as (A2 & B2 & C2).
  repeat split; congruence.
Qed.

(** The reply buffers at the head of the loop. *)
Lemma main_buffers :
  abtAtqa m = [0x04; 0x00]
  /\ abtSak m = [0x08; 0xb6; 0xdd; 0; 0; 0; 0; 0; 0]
  /\ match last args with
     | Some a =>
         if Z.of_nat (String.length a) =? 8
         then abtUidBcc m = main_uid_loop 4 0 a (<[4%nat := 0]> (abtUidBcc initial))
         else abtUidBcc m = abtUidBcc initial
     | None => abtUidBcc m = abtUidBcc initial
     end.
Proof.
  destruct main_identity as (m0 & Hopt & HA & HU & HS).
  apply main_options_spec in Hopt as (H1 & H2 & H3).
  rewrite HA, HS, HU, H1, H2. repeat split. exact H3.
Qed.

Lemma main_uid_shape :
  exists u0 u1 u2 u3,
    abtUidBcc m = [u0; u1; u2; u3; Z.lxor (Z.lxor (Z.lxor u0 u1) u2) u3]
    /\ [u0; u1; u2; u3]
       = match last args with
         | Some a =>
             if Z.of_nat (String.length a) =? 8
             then map (fun i => u8 (strtol16 (substring (i * 2) 2 a))) [0; 1; 2; 3]%nat
             else [0xDE; 0xAD; 0xBE; 0xAF]
         | None => [0xDE; 0xAD; 0xBE; 0xAF]
         end.
Proof.
  destruct main_buffers as (_ & _ & HU).
  destruct (last args) as [a|].
  - destruct (Z.of_nat (String.length a) =? 8).
    + cbn [initial abtUidBcc] in HU. rewrite main_uid_loop_4 in HU. cbv zeta in HU.
      do 4 eexists. split; [exact HU|reflexivity].
    + exists 0xDE, 0xAD, 0xBE, 0xAF. split; [exact HU|reflexivity].
  - exists 0xDE, 0xAD, 0xBE, 0xAF. split; [exact HU|reflexivity].
Qed.

(** C1. The reply to a received frame is chosen by the number of bits of
    the frame alone: ATQA (2 bytes, 16 bits) for 7 bits, UID and BCC
    (5 bytes, 40 bits) for 16 bits, SAK and its CRC (3 bytes, 24 bits) for
    72 bits, and nothing for any other length; two frames of the same
    length get the same reply whatever their bytes.  A frame of another
    length is ignored and is no error: nothing is sent, nothing is
    reported and the loop goes on, as it does whenever a reply was sent. *)
Theorem reply_by_bit_length (e e' : event) :
  rx_ok e = true -> wf_event e ->
  rx_ok e' = true -> wf_event e' ->
  rx_bits e' = rx_bits e ->
  exists m1 m1',
    final (main_loop_body e m) = Some m1
    /\ final (main_loop_body e' m) = Some m1'
    /\ sent m1' = sent m1
    /\ sent m1 = sent m ++
         (if rx_bits e =? 7 then [(abtAtqa m, 16)]
          else if rx_bits e =? 16 then [(abtUidBcc m, 40)]
          else if rx_bits e =? 72 then [(take 3 (abtSak m), 24)]
          else [])
    /\ length (abtAtqa m) = 2%nat
    /\ length (abtUidBcc m) = 5%nat
    /\ length (take 3 (abtSak m)) = 3%nat
    /\ (rx_bits e <> 7 -> rx_bits e <> 16 -> rx_bits e <> 72 ->
        main_loop_body e m = Running m1
        /\ sent m1 = sent m
        /\ stderr m1 = stderr m)
    /\ (tx_ok e = true ->
        main_loop_body e m = Running m1 /\ stderr m1 = stderr m).
Proof.
  intros Hrx Hwf Hrx' Hwf' Hbits.
  destruct main_uid_shape as (u0 & u1 & u2 & u3 & HU & _).
  destruct main_buffers as (HA & HS & _).
  assert (La : length (abtAtqa m) = 2%nat) by (rewrite HA; reflexivity).
  assert (Lu : length (abtUidBcc m) = 5%nat) by (rewrite HU; reflexivity).
  assert (Ls : length (abtSak m) = 9%nat) by (rewrite HS; reflexivity).
  destruct (main_loop_body_spec e m Hrx Hwf) as (m1 & F1 & _ & _ & S1 & _ & T1 & _);
    [lia..|].
  destruct (main_loop_body_spec e' m Hrx' Hwf') as (m1' & F1' & _ & _ & S1' & _); [lia..|].
  exists m1, m1'. split; [exact F1|]. split; [exact F1'|].
  split; [rewrite S1, S1', Hbits; reflexivity|].
  split.
  { rewrite S1. unfold reply_to.
    rewrite <- La at 1. rewrite <- Lu at 1. rewrite !firstn_all. reflexivity. }
  split; [exact La|]. split; [exact Lu|].
  split; [rewrite length_take; lia|].
  split; [|exact T1].
  intros N7 N16 N72.
  destruct (main_loop_body_turn e m Hrx Hwf) as (m2 & r & _ & _ & _ & Hturn); [lia..|].
  apply Z.eqb_neq in N7, N16, N72. rewrite N7, N16, N72 in Hturn.
  destruct Hturn as (Hb & Hs & He & _).
  rewrite Hb in F1. injection F1 as <-.
  split; [exact Hb|]. split; [exact Hs|exact He].
Qed.

(** C3. Whatever UID the program was started with, the default
    DE AD BE AF or the one given on the command line, the reply to a frame
    of 16 bits is the four bytes of the UID followed by the exclusive or of
    the four, 40 bits in all; for DE AD BE AF it is DE AD BE AF 62. *)
Theorem uid_bcc_reply (e : event) :
  rx_ok e = true -> wf_event e ->
  rx_bits e = 16 ->
  exists u0 u1 u2 u3 m',
    [u0; u1; u2; u3]
    = match last args with
      | Some a =>
          if Z.of_nat (String.length a) =? 8
          then map (fun i => u8 (strtol16 (substring (i * 2) 2 a))) [0; 1; 2; 3]%nat
          else [0xDE; 0xAD; 0xBE; 0xAF]
      | None => [0xDE; 0xAD; 0xBE; 0xAF]
      end
    /\ take 4 (abtUidBcc m) = [u0; u1; u2; u3]
    /\ final (main_loop_body e m) = Some m'
    /\ sent m' = sent m ++ [([u0; u1; u2; u3; Z.lxor (Z.lxor (Z.lxor u0 u1) u2) u3], 40)]
    /\ ([u0; u1; u2; u3] = [0xDE; 0xAD; 0xBE; 0xAF] ->
        sent m' = sent m ++ [([0xDE; 0xAD; 0xBE; 0xAF; 0x62], 40)]).
Proof.
  intros Hrx Hwf Hbits.
  destruct main_uid_shape as (u0 & u1 & u2 & u3 & HU & Hsrc).
  destruct main_buffers as (HA & HS & _).
  destruct (main_loop_body_spec e m Hrx Hwf) as (m' & F & _ & _ & S & _);
    [rewrite HA; cbn; lia|rewrite HU; cbn; lia|rewrite HS; cbn; lia|].
  exists u0, u1, u2, u3, m'.
  assert (Hsent : sent m' = sent m ++
            [([u0; u1; u2; u3; Z.lxor (Z.lxor (Z.lxor u0 u1) u2) u3], 40)]).
  { rewrite S, Hbits. change (reply_to m 16) with [(take 5 (abtUidBcc m), 40)].
    rewrite HU. reflexivity. }
  split; [exact Hsrc|]. split; [rewrite HU; reflexivity|].
  split; [exact F|]. split; [exact Hsent|].
  intros Huid. injection Huid as -> -> -> ->. exact Hsent.
Qed.

(** C4. The reply to a frame of 72 bits is the SAK byte 08 followed by the
    two bytes of the CRC-A of that one byte, low byte first: what
    [append_iso14443a_crc] writes after it. *)
Theorem sak_reply (e : event) :
  rx_ok e = true -> wf_event e ->
  rx_bits e = 72 ->
  exists m' sak lo hi,
    final (main_loop_body e m) = Some m'
    /\ sent m' = sent m ++ [([sak; lo; hi], 24)]
    /\ sak = 0x08
    /\ lo = crc_a [sak] mod 256
    /\ hi = crc_a [sak] / 256
    /\ append_iso14443a_crc 1 [sak; 0; 0] 1 = Ok [sak; lo; hi].
Proof.
  intros Hrx Hwf Hbits.
  destruct main_uid_shape as (u0 & u1 & u2 & u3 & HU & _).
  destruct main_buffers as (HA & HS & _).
  destruct (main_loop_body_spec e m Hrx Hwf) as (m' & F & _ & _ & S & _);
    [rewrite HA; cbn; lia|rewrite HU; cbn; lia|rewrite HS; cbn; lia|].
  exists m', 0x08, 0xb6, 0xdd.
  split; [exact F|].
  split.
  { rewrite S, Hbits. change (reply_to m 72) with [(take 3 (abtSak m), 24)].
    rewrite HS. reflexivity. }
  repeat split; vm_compute; reflexivity.
Qed.

(** C9 (amended). One turn of the loop leaves the ATQA, UID+BCC and SAK
    buffers and the quiet flag as they were.  It gives the device the reply
    selected by the length of the frame and nothing else, and nothing at all
    for another length or a failed reception.  When the device does not
    send the reply, [main] reports [nfc_target_send_bits] on the standard
    error stream and exits with [EXIT_FAILURE]; otherwise the loop goes on
    and nothing is reported.  With [-q] nothing is written on the standard
    output; without it, a turn that received a frame appends its trace: a
    newline for a frame of 7 bits, [R: ] and the dump of the frame, then
    [T: ] and the dump of the reply once it is sent. *)
Theorem loop_body_frame (e : event) :
  wf_event e ->
  exists m' r,
    print_hex_bits (rx_data e) (rx_bits e) = Ok r
    /\ final (main_loop_body e m) = Some m'
    /\ abtAtqa m' = abtAtqa m
    /\ abtUidBcc m' = abtUidBcc m
    /\ abtSak m' = abtSak m
    /\ quiet_output m' = quiet_output m
    /\ (if rx_ok e then
          if rx_bits e =? 7 then turn_answered e m m' nl r (abtAtqa m) 2 16
          else if rx_bits e =? 16 then turn_answered e m m' "" r (abtUidBcc m) 5 40
          else if rx_bits e =? 72 then turn_answered e m m' "" r (abtSak m) 3 24
          else turn_ignored e m m' r
        else
          main_loop_body e m = Running m'
          /\ sent m' = sent m
          /\ stderr m' = stderr m
          /\ stdout m' = stdout m).
Proof.
  intros Hwf.
  destruct (rx_ok e) eqn:Hrx.
  - destruct main_uid_shape as (u0 & u1 & u2 & u3 & HU & _).
    destruct main_buffers as (HA & HS & _).
    destruct (main_loop_body_turn e m Hrx Hwf)
      as (m' & r & Hr & (I1 & I2 & I3) & Q & Hturn);
      [rewrite HA; cbn; lia|rewrite HU; cbn; lia|rewrite HS; cbn; lia|].
    exists m', r. split; [exact Hr|].
    split.
    { destruct (rx_bits e =? 7); [eapply turn_answered_final, Hturn|].
      destruct (rx_bits e =? 16); [eapply turn_answered_final, Hturn|].
      destruct (rx_bits e =? 72); [eapply turn_answered_final, Hturn|].
      eapply turn_ignored_final, Hturn. }
    repeat (split; [assumption|]). exact Hturn.
  - destruct Hwf as [Hlen Hbits].
    destruct (print_hex_bits_total (rx_data e) (rx_bits e)) as [r Hr]; [lia| |].
    { rewrite Hlen. unfold MAX_FRAME_LEN in *. Z.div_mod_to_equations. lia. }
    unfold main_loop_body. rewrite Hrx. cbn [final].
    destruct m as [recv rbits atqa uid sak ptx tbits quiet out err snt].
    eexists. exists r. split; [exact Hr|]. split; [reflexivity|]. msimpl.
    repeat split.
Qed.

End AtLoopHead.

Lemma reply_by_bit_length_witness :
  let d := Device true "PN532" true (0x26 :: repeat 0 263) 7 true true in
  let e := Event true (0x93 :: 0x20 :: repeat 0 262) 16 true in
  let e' := Event true (repeat 0xFF 264) 16 false in
  exists m,
    main "nfc-emulate-uid" ["-q"%string] d [] = Running m
    /\ rx_ok e = true /\ wf_event e
    /\ rx_ok e' = true /\ wf_event e'
    /\ rx_bits e' = rx_bits e
    /\ exists m1 m1',
         final (main_loop_body e m) = Some m1
         /\ final (main_loop_body e' m) = Some m1'
         /\ sent m1' = sent m1
         /\ sent m1 = sent m ++
              (if rx_bits e =? 7 then [(abtAtqa m, 16)]
               else if rx_bits e =? 16 then [(abtUidBcc m, 40)]
               else if rx_bits e =? 72 then [(take 3 (abtSak m), 24)]
               else [])
         /\ length (abtAtqa m) = 2%nat
         /\ length (abtUidBcc m) = 5%nat
         /\ length (take 3 (abtSak m)) = 3%nat
         /\ (rx_bits e <> 7 -> rx_bits e <> 16 -> rx_bits e <> 72 ->
             main_loop_body e m = Running m1
             /\ sent m1 = sent m
             /\ stderr m1 = stderr m)
         /\ (tx_ok e = true ->
             main_loop_body e m = Running m1 /\ stderr m1 = stderr m).
Proof.
  intros d e e'.
  assert (Hwf : wf_event e) by (split; [reflexivity|vm_compute; split; discriminate]).
  assert (Hwf' : wf_event e') by (split; [reflexivity|vm_compute; split; discriminate]).
  eexists. split; [vm_compute; reflexivity|].
  split; [reflexivity|]. split; [exact Hwf|].
  split; [reflexivity|]. split; [exact Hwf'|]. split; [reflexivity|].
  apply (reply_by_bit_length "nfc-emulate-uid" ["-q"%string] d []);
    [vm_compute; reflexivity|reflexivity|exact Hwf|reflexivity|exact Hwf'|reflexivity].
Defined.

Lemma uid_bcc_reply_witness :
  let d := Device true "PN532" true (0x26 :: repeat 0 263) 7 true true in
  let e := Event true (0x93 :: 0x20 :: repeat 0 262) 16 true in
  exists m,
    main "nfc-emulate-uid" ["DEADBEAF"%string] d [] = Running m
    /\ rx_ok e = true /\ wf_event e
    /\ rx_bits e = 16
    /\ exists u0 u1 u2 u3 m',
         [u0; u1; u2; u3]
         = match last ["DEADBEAF"%string] with
           | Some a =>
               if Z.of_nat (String.length a) =? 8
               then map (fun i => u8 (strtol16 (substring (i * 2) 2 a))) [0; 1; 2; 3]%nat
               else [0xDE; 0xAD; 0xBE; 0xAF]
           | None => [0xDE; 0xAD; 0xBE; 0xAF]
           end
         /\ take 4 (abtUidBcc m) = [u0; u1; u2; u3]
         /\ final (main_loop_body e m) = Some m'
         /\ sent m' = sent m ++
              [([u0; u1; u2; u3; Z.lxor (Z.lxor (Z.lxor u0 u1) u2) u3], 40)]
         /\ ([u0; u1; u2; u3] = [0xDE; 0xAD; 0xBE; 0xAF] ->
             sent m' = sent m ++ [([0xDE; 0xAD; 0xBE; 0xAF; 0x62], 40)]).
Proof.
  intros d e.
  assert (Hwf : wf_event e) by (split; [reflexivity|vm_compute; split; discriminate]).
  eexists. split; [vm_compute; reflexivity|].
  split; [reflexivity|]. split; [exact Hwf|]. split; [reflexivity|].
  apply (uid_bcc_reply "nfc-emulate-uid" ["DEADBEAF"%string] d []);
    [vm_compute; reflexivity|reflexivity|exact Hwf|reflexivity].
Defined.

Lemma sak_reply_witness :
  let d := Device true "PN532" true (0x26 :: repeat 0 263) 7 true true in
  let e := Event true
             ([0x93; 0x70; 0xDE; 0xAD; 0xBE; 0xAF; 0x62; 0xdb; 0x98] ++ repeat 0 255)
             72 true in
  exists m,
    main "nfc-emulate-uid" [] d [] = Running m
    /\ rx_ok e = true /\ wf_event e
    /\ rx_bits e = 72
    /\ exists m' sak lo hi,
         final (main_loop_body e m) = Some m'
         /\ sent m' = sent m ++ [([sak; lo; hi], 24)]
         /\ sak = 0x08
         /\ lo = crc_a [sak] mod 256
         /\ hi = crc_a [sak] / 256
         /\ append_iso14443a_crc 1 [sak; 0; 0] 1 = Ok [sak; lo; hi].
Proof.
  intros d e.
  assert (Hwf : wf_event e) by (split; [reflexivity|vm_compute; split; discriminate]).
  eexists. split; [vm_compute; reflexivity|].
  split; [reflexivity|]. split; [exact Hwf|]. split; [reflexivity|].
  apply (sak_reply "nfc-emulate-uid" [] d []);
    [vm_compute; reflexivity|reflexivity|exact Hwf|reflexivity].
Defined.

Lemma loop_body_frame_witness :
  let d := Device true "PN532" true (0x26 :: repeat 0 263) 7 true true in
  let e := Event true (0x26 :: repeat 0 263) 7 true in
  exists m,
    main "nfc-emulate-uid" [] d [] = Running m
    /\ wf_event e
    /\ exists m' r,
         print_hex_bits (rx_data e) (rx_bits e) = Ok r
         /\ final (main_loop_body e m) = Some m'
         /\ abtAtqa m' = abtAtqa m
         /\ abtUidBcc m' = abtUidBcc m
         /\ abtSak m' = abtSak m
         /\ quiet_output m' = quiet_output m
         /\ (if rx_ok e then
               if rx_bits e =? 7 then turn_answered e m m' nl r (abtAtqa m) 2 16
               else if rx_bits e =? 16 then turn_answered e m m' "" r (abtUidBcc m) 5 40
               else if rx_bits e =? 72 then turn_answered e m m' "" r (abtSak m) 3 24
               else turn_ignored e m m' r
             else
               main_loop_body e m = Running m'
               /\ sent m' = sent m
               /\ stderr m' = stderr m
               /\ stdout m' = stdout m).
Proof.
  intros d e.
  assert (Hwf : wf_event e) by (split; [reflexivity|vm_compute; split; discriminate]).
  eexists. split; [vm_compute; reflexivity|]. split; [exact Hwf|].
  apply (loop_body_frame "nfc-emulate-uid" [] d []);
    [vm_compute; reflexivity|exact Hwf].
Defined.

(** C9, as stated, fails: without [-q], the turn that answers a frame of
    7 bits also writes a trace of the two frames on the standard output. *)
Lemma loop_body_not_silent :
  let d := Device true "PN532" true (0x26 :: repeat 0 263) 7 true true in
  let e := Event true (0x26 :: repeat 0 263) 7 true in
  exists m m',
    main "nfc-emulate-uid" [] d [] = Running m
    /\ main_loop_body e m = Running m'
    /\ sent m' = sent m ++ [([0x04; 0x00], 16)]
    /\ stdout m' = (stdout m ++ nl ++ "R: 26" ++ nl ++ "T: 04  00  " ++ nl)%string
    /\ stdout m' <> stdout m.
Proof.
  intros d e. eexists. eexists.
  split; [vm_compute; reflexivity|].
  split; [vm_compute; reflexivity|].
  split; [vm_compute; reflexivity|].
  split; [vm_compute; reflexivity|].
  intros H. apply (f_equal String.length) in H. vm_compute in H. discriminate H.
Qed.

(** * Further properties *)

(** ** More on the lookup tables *)

Lemma oddparity_bit (b : Z) : is_u8 b -> oddparity b = 0 \/ oddparity b = 1.
Proof.
  intros Hb.
  pose proof (check_u8 (fun b => (oddparity b =? 0) || (oddparity b =? 1))) as H.
  specialize (H ltac:(vm_compute; reflexivity) b Hb). cbv beta in H. lia.
Qed.

(** X1. [mirror] reverses the order of the eight bits of a byte. *)
Theorem mirror_reverses_bits (b i : Z) :
  is_u8 b -> 0 <= i < 8 ->
  Z.testbit (mirror b) i = Z.testbit b (7 - i).
Proof.
  intros Hb Hi.
  pose proof (check_u8 (fun b =>
    forallb (fun i => Bool.eqb (Z.testbit (mirror b) i) (Z.testbit b (7 - i)))
            [0; 1; 2; 3; 4; 5; 6; 7])) as H.
  specialize (H ltac:(vm_compute; reflexivity) b Hb). cbv beta in H.
  rewrite forallb_forall in H. apply eqb_prop. apply H.
  cbn [In]. lia.
Qed.

Lemma mirror_reverses_bits_witness :
  is_u8 0x26 /\ 0 <= 2 < 8 /\ Z.testbit (mirror 0x26) 2 = Z.testbit 0x26 (7 - 2).
Proof.
  assert (H1 : is_u8 0x26) by (unfold is_u8; lia).
  assert (H2 : 0 <= 2 < 8) by lia.
  split; [exact H1|]. split; [exact H2|]. exact (mirror_reverses_bits 0x26 2 H1 H2).
Defined.

(** X2. Mirroring a byte does not change its parity bit. *)
Theorem oddparity_mirror (b : Z) :
  is_u8 b -> oddparity (mirror b) = oddparity b.
Proof.
  intros Hb.
  pose proof (check_u8 (fun b => oddparity (mirror b) =? oddparity b)) as H.
  specialize (H ltac:(vm_compute; reflexivity) b Hb). cbv beta in H. lia.
Qed.

Lemma oddparity_mirror_witness :
  is_u8 0x26 /\ oddparity (mirror 0x26) = oddparity 0x26.
Proof.
  assert (H1 : is_u8 0x26) by (unfold is_u8; lia).
  split; [exact H1|]. exact (oddparity_mirror 0x26 H1).
Defined.

(** ** [oddparity_bytes] *)

Lemma oddparity_bytes_loop_spec (pbtData : list Z) (n : nat) :
  forall uiByteNr pre mid post,
  length pre = uiByteNr -> length mid = n ->
  (uiByteNr + n <= length pbtData)%nat ->
  oddparity_bytes_loop n pbtData uiByteNr (pre ++ mid ++ post)
  = Ok (pre ++ map oddparity (take n (drop uiByteNr pbtData)) ++ post).
Proof.
  induction n as [|n IH]; intros uiByteNr pre mid post Hpre Hmid Hlen.
  - destruct mid; [|discriminate]. reflexivity.
  - destruct mid as [|x mid]; [discriminate|]. injection Hmid as Hmid.
    destruct (lookup_lt_is_Some_2 pbtData uiByteNr ltac:(lia)) as [d Hd].
    cbn [oddparity_bytes_loop app]. unfold load. rewrite Hd. cbn [obind].
    rewrite <- Hpre, store_middle. cbn [obind].
    specialize (IH (S uiByteNr) (pre ++ [table_get OddParity d]) mid post).
    rewrite length_app, Nat.add_1_r, <- app_assoc, Hpre in IH. cbn [app] in IH.
    rewrite Hpre, IH by (first [reflexivity|assumption|lia]).
    rewrite (drop_S pbtData d uiByteNr Hd). cbn [take map]. 
    rewrite <- app_assoc. reflexivity.
Qed.

(** X3. [oddparity_bytes] replaces the first [uiLen] slots of [pbtPar] by
    the parity bits of the first [uiLen] bytes of [pbtData], each 0 or 1,
    and leaves the other slots alone. *)
Theorem oddparity_bytes_spec (pbtData pbtPar : list Z) (uiLen : Z) :
  Forall is_u8 pbtData ->
  0 <= uiLen <= Z.of_nat (length pbtData) ->
  uiLen <= Z.of_nat (length pbtPar) ->
  oddparity_bytes pbtData uiLen pbtPar
  = Ok (map oddparity (take (Z.to_nat uiLen) pbtData) ++ drop (Z.to_nat uiLen) pbtPar)
  /\ Forall (fun p => p = 0 \/ p = 1) (map oddparity (take (Z.to_nat uiLen) pbtData)).
Proof.
  intros Hbytes Hlen Hpar. split.
  - unfold oddparity_bytes.
    rewrite <- (take_drop (Z.to_nat uiLen) pbtPar) at 1.
    pose proof (oddparity_bytes_loop_spec pbtData (Z.to_nat uiLen) 0 []
                  (take (Z.to_nat uiLen) pbtPar) (drop (Z.to_nat uiLen) pbtPar)) as H.
    cbn [app] in H. rewrite drop_0 in H. apply H; [reflexivity| |lia].
    rewrite length_take. lia.
  - apply Forall_map. apply Forall_take.
    eapply Forall_impl; [exact Hbytes|]. intros b Hb. apply oddparity_bit, Hb.
Qed.

Lemma oddparity_bytes_spec_witness :
  Forall is_u8 [0x26; 0xff; 0x01]
  /\ 0 <= 2 <= Z.of_nat (length [0x26; 0xff; 0x01])
  /\ 2 <= Z.of_nat (length [7; 7; 7])
  /\ oddparity_bytes [0x26; 0xff; 0x01] 2 [7; 7; 7]
     = Ok (map oddparity (take (Z.to_nat 2) [0x26; 0xff; 0x01]) ++ drop (Z.to_nat 2) [7; 7; 7])
  /\ Forall (fun p => p = 0 \/ p = 1)
            (map oddparity (take (Z.to_nat 2) [0x26; 0xff; 0x01])).
Proof.
  assert (H1 : Forall is_u8 [0x26; 0xff; 0x01])
    by (repeat constructor; unfold is_u8; lia).
  assert (H2 : 0 <= 2 <= Z.of_nat (length [0x26; 0xff; 0x01])) by (cbn; lia).
  assert (H3 : 2 <= Z.of_nat (length [7; 7; 7])) by (cbn; lia).
  split; [exact H1|]. split; [exact H2|]. split; [exact H3|].
  exact (oddparity_bytes_spec [0x26; 0xff; 0x01] [7; 7; 7] 2 H1 H2 H3).
Defined.

Lemma oddparity_bytes_loop_short (pbtData : list Z) (n : nat) :
  forall uiByteNr pbtPar,
  (0 < n)%nat ->
  (uiByteNr + n <= length pbtData)%nat ->
  (length pbtPar < uiByteNr + n)%nat ->
  oddparity_bytes_loop n pbtData uiByteNr pbtPar = Fault.
Proof.
  induction n as [|n IH]; intros uiByteNr pbtPar Hn Hd Hp; [lia|].
  destruct (lookup_lt_is_Some_2 pbtData uiByteNr ltac:(lia)) as [d Hdd].
  cbn [oddparity_bytes_loop]. unfold load, store. rewrite Hdd. cbn [obind].
  destruct (decide (uiByteNr < length pbtPar)%nat) as [Hin|Hout]; [|reflexivity].
  cbn [obind]. apply IH; [lia|lia|]. rewrite length_insert. lia.
Qed.

(** X4. When [pbtPar] has fewer than [uiLen] slots, [oddparity_bytes] writes
    beyond its end. *)
Theorem oddparity_bytes_overrun (pbtData pbtPar : list Z) (uiLen : Z) :
  0 <= uiLen <= Z.of_nat (length pbtData) ->
  Z.of_nat (length pbtPar) < uiLen ->
  oddparity_bytes pbtData uiLen pbtPar = Fault.
Proof.
  intros Hlen Hpar. unfold oddparity_bytes.
  apply oddparity_bytes_loop_short; lia.
Qed.

Lemma oddparity_bytes_overrun_witness :
  0 <= 2 <= Z.of_nat (length [0x26; 0xff])
  /\ Z.of_nat (length [0]) < 2
  /\ oddparity_bytes [0x26; 0xff] 2 [0] = Fault.
Proof.
  assert (H1 : 0 <= 2 <= Z.of_nat (length [0x26; 0xff])) by (cbn; lia).
  assert (H2 : Z.of_nat (length [0]) < 2) by (cbn; lia).
  split; [exact H1|]. split; [exact H2|].
  exact (oddparity_bytes_overrun [0x26; 0xff] [0] 2 H1 H2).
Defined.

(** ** [mirror_bytes] at the end of the array *)




(** ** [mirror32] and [mirror64] *)

Lemma mirror_word (n : nat) (x : Z) :
  mirror_bytes (to_bytes_le n x) (Z.of_nat n) = Ok (map mirror (to_bytes_le n x)).
Proof.
  rewrite mirror_bytes_spec by (rewrite length_to_bytes_le; lia).
  rewrite Nat2Z.id.
  rewrite firstn_all2, skipn_all2 by (rewrite length_to_bytes_le; lia).
  rewrite app_nil_r. reflexivity.
Qed.

Lemma mirror_bytes_u8 (l : list Z) : Forall is_u8 l -> Forall is_u8 (map mirror l).
Proof.
  intros H. apply Forall_map. eapply Forall_impl; [exact H|].
  intros b Hb. apply mirror_u8, Hb.
Qed.

Lemma of_bytes_le_bound (l : list Z) :
  Forall is_u8 l -> 0 <= of_bytes_le l < 256 ^ Z.of_nat (length l).
Proof.
  induction 1 as [|b l Hb _ IH]; [cbn; lia|].
  cbn [of_bytes_le length]. rewrite Nat2Z.inj_succ, Z.pow_succ_r by lia.
  unfold is_u8 in Hb. lia.
Qed.

Lemma mirror_mirror_map (l : list Z) :
  Forall is_u8 l -> map mirror (map mirror l) = l.
Proof.
  induction 1 as [|b l Hb _ IH]; [reflexivity|].
  cbn [map]. rewrite mirror_mirror by exact Hb. rewrite IH. reflexivity.
Qed.

(** X6. [mirror32] mirrors each of the four bytes of its argument in place,
    gives a 32-bit value, and undoes itself; [mirror64] does the same with
    eight bytes. *)
Theorem mirror32_mirror64_bytes (x y : Z) :
  is_u32 x -> is_u64 y ->
  exists x' y',
    mirror32 x = Ok x' /\ is_u32 x'
    /\ to_bytes_le 4 x' = map mirror (to_bytes_le 4 x)
    /\ mirror32 x' = Ok x
    /\ mirror64 y = Ok y' /\ is_u64 y'
    /\ to_bytes_le 8 y' = map mirror (to_bytes_le 8 y)
    /\ mirror64 y' = Ok y.
Proof.
  intros Hx Hy.
  assert (Hw : forall (n : nat) z, 0 <= z < 256 ^ Z.of_nat n ->
            let z' := of_bytes_le (map mirror (to_bytes_le n z)) in
            0 <= z' < 256 ^ Z.of_nat n
            /\ to_bytes_le n z' = map mirror (to_bytes_le n z)
            /\ of_bytes_le (map mirror (to_bytes_le n z')) = z).
  { intros n z Hz z'.
    assert (Hu : Forall is_u8 (map mirror (to_bytes_le n z)))
      by apply mirror_bytes_u8, to_bytes_le_u8.
    assert (Hl : length (map mirror (to_bytes_le n z)) = n)
      by (rewrite length_map; apply length_to_bytes_le).
    assert (Hb : to_bytes_le n z' = map mirror (to_bytes_le n z)).
    { unfold z'. rewrite <- Hl at 1. apply to_of_bytes_le, Hu. }
    split; [|split; [exact Hb|]].
    - pose proof (of_bytes_le_bound _ Hu) as H. rewrite Hl in H. exact H.
    - rewrite Hb, mirror_mirror_map by apply to_bytes_le_u8.
      apply of_to_bytes_le, Hz. }
  destruct (Hw 4%nat x Hx) as (B1 & B2 & B3).
  destruct (Hw 8%nat y Hy) as (C1 & C2 & C3).
  exists (of_bytes_le (map mirror (to_bytes_le 4 x))),
         (of_bytes_le (map mirror (to_bytes_le 8 y))).
  unfold mirror32, mirror64.
  rewrite (mirror_word 4), (mirror_word 8). cbn [obind].
  rewrite (mirror_word 4), (mirror_word 8). cbn [obind].
  rewrite B3, C3.
  repeat split; first [reflexivity | assumption | apply B1 | apply C1].
Qed.

Lemma mirror32_mirror64_bytes_witness :
  is_u32 0x01020380 /\ is_u64 0x0123456789abcdef
  /\ exists x' y',
       mirror32 0x01020380 = Ok x' /\ is_u32 x'
       /\ to_bytes_le 4 x' = map mirror (to_bytes_le 4 0x01020380)
       /\ mirror32 x' = Ok 0x01020380
       /\ mirror64 0x0123456789abcdef = Ok y' /\ is_u64 y'
       /\ to_bytes_le 8 y' = map mirror (to_bytes_le 8 0x0123456789abcdef)
       /\ mirror64 y' = Ok 0x0123456789abcdef.
Proof.
  assert (H1 : is_u32 0x01020380) by (unfold is_u32; lia).
  assert (H2 : is_u64 0x0123456789abcdef) by (unfold is_u64; lia).
  split; [exact H1|]. split; [exact H2|].
  exact (mirror32_mirror64_bytes 0x01020380 0x0123456789abcdef H1 H2).
Defined.

(** ** The bytes of a swapped word *)

Lemma bytes_of_rev (n : nat) (z : Z) :
  0 <= of_bytes_le (rev (to_bytes_le n z)) < 256 ^ Z.of_nat n
  /\ to_bytes_le n (of_bytes_le (rev (to_bytes_le n z))) = rev (to_bytes_le n z).
Proof.
  assert (Hu : Forall is_u8 (rev (to_bytes_le n z)))
    by apply Forall_rev, to_bytes_le_u8.
  assert (Hl : length (rev (to_bytes_le n z)) = n)
    by (rewrite length_rev; apply length_to_bytes_le).
  split.
  - pose proof (of_bytes_le_bound _ Hu) as H. rewrite Hl in H. exact H.
  - rewrite <- Hl at 1. apply to_of_bytes_le, Hu.
Qed.

(** X7. [swap_endian32] and [swap_endian64] give a value of their width
    whose bytes are those of the argument in the opposite order. *)
Theorem swap_endian_bytes (x y : Z) :
  is_u32 (swap_endian32 x)
  /\ to_bytes_le 4 (swap_endian32 x) = rev (to_bytes_le 4 x)
  /\ is_u64 (swap_endian64 y)
  /\ to_bytes_le 8 (swap_endian64 y) = rev (to_bytes_le 8 y).
Proof.
  rewrite swap_endian32_rev, swap_endian64_rev.
  destruct (bytes_of_rev 4 x) as [B1 B2]. destruct (bytes_of_rev 8 y) as [C1 C2].
  repeat split; first [assumption | apply B1 | apply C1].
Qed.

(** X8. Mirroring the bytes of a word and swapping their order commute. *)
Theorem mirror32_swap_endian32 (x : Z) :
  is_u32 x ->
  exists x', mirror32 x = Ok x'
             /\ mirror32 (swap_endian32 x) = Ok (swap_endian32 x').
Proof.
  intros Hx.
  exists (of_bytes_le (map mirror (to_bytes_le 4 x))).
  unfold mirror32. rewrite !(mirror_word 4). cbn [obind].
  split; [reflexivity|]. f_equal.
  rewrite (swap_endian32_rev x), (swap_endian32_rev (of_bytes_le _)).
  destruct (bytes_of_rev 4 x) as [_ ->].
  assert (Hu : Forall is_u8 (map mirror (to_bytes_le 4 x)))
    by apply mirror_bytes_u8, to_bytes_le_u8.
  pose proof (to_of_bytes_le _ Hu) as Hb.
  rewrite length_map, length_to_bytes_le in Hb. rewrite Hb.
  rewrite map_rev. reflexivity.
Qed.

Lemma mirror32_swap_endian32_witness :
  is_u32 0x01020380
  /\ exists x', mirror32 0x01020380 = Ok x'
                /\ mirror32 (swap_endian32 0x01020380) = Ok (swap_endian32 x').
Proof.
  assert (H1 : is_u32 0x01020380) by (unfold is_u32; lia).
  split; [exact H1|]. exact (mirror32_swap_endian32 0x01020380 H1).
Defined.

(** ** More on the CRC *)

Lemma crc_fold_u16 (data : list Z) (wCrc : Z) :
  Forall is_u8 data -> is_u16 wCrc -> is_u16 (crc_fold data wCrc).
Proof. intros Hd Hw. apply (crc_fold_crc16 data wCrc Hd Hw). Qed.

(** What [append_iso14443a_crc] writes, in terms of the register. *)
Lemma append_iso14443a_crc_fold (data rest : list Z) (x y : Z) (fuel : nat) :
  Forall is_u8 data -> data <> [] ->
  Z.of_nat (length data) < 2 ^ 32 -> (length data <= fuel)%nat ->
  append_iso14443a_crc fuel (data ++ x :: y :: rest) (Z.of_nat (length data))
  = Ok (data ++ crc_fold data 0x6363 mod 256 :: crc_fold data 0x6363 / 256 :: rest).
Proof.
  intros Hd Hne Hlen Hfuel. unfold append_iso14443a_crc.
  pose proof (crc_loop_spec data fuel [] (x :: y :: rest) 0x6363 Hne Hlen Hfuel) as Hloop.
  cbn [app length] in Hloop. rewrite Hloop. cbn [obind fst snd Nat.add].
  assert (Hr : is_u16 (crc_fold data 0x6363))
    by (apply crc_fold_u16; [exact Hd|unfold is_u16; lia]).
  destruct (crc_bytes _ Hr) as [-> ->].
  rewrite store_middle. cbn [obind].
  set (lo := crc_fold data 25443 mod 256).
  replace (S (length data)) with (length (data ++ [lo]))
    by (rewrite length_app; cbn; lia).
  replace (data ++ lo :: y :: rest) with ((data ++ [lo]) ++ y :: rest)
    by (rewrite <- app_assoc; reflexivity).
  rewrite store_middle, <- app_assoc. reflexivity.
Qed.

(** Running the register over its own two bytes, low byte first, clears it. *)
Lemma crc_body_residue (w : Z) :
  is_u16 w -> crc_body (w / 256) (crc_body (w mod 256) w) = 0.
Proof.
  intros Hw.
  pose proof (check_range_sound
                (fun w => crc_body (w / 256) (crc_body (w mod 256) w) =? 0)
                (Z.to_nat 65536) 0 ltac:(vm_compute; reflexivity) w) as H.
  cbv beta in H. rewrite Z2Nat.id in H by lia.
  unfold is_u16 in Hw. change (2 ^ 16) with 65536 in Hw.
  specialize (H ltac:(lia)). lia.
Qed.

Lemma crc_fold_app (l1 l2 : list Z) (w : Z) :
  crc_fold (l1 ++ l2) w = crc_fold l2 (crc_fold l1 w).
Proof. unfold crc_fold. apply fold_left_app. Qed.

(** X9. A frame that ends with its own checksum checks to zero: run over the
    data and the two bytes it appended to them, [append_iso14443a_crc]
    appends 00 00. *)
Theorem append_iso14443a_crc_residue (data rest : list Z) (x y z1 z2 : Z) (fuel : nat) :
  Forall is_u8 data ->
  data <> [] ->
  Z.of_nat (length data) + 2 < 2 ^ 32 ->
  (length data + 2 <= fuel)%nat ->
  exists framed,
    append_iso14443a_crc fuel (data ++ x :: y :: z1 :: z2 :: rest)
                         (Z.of_nat (length data))
    = Ok (framed ++ z1 :: z2 :: rest)
    /\ length framed = (length data + 2)%nat
    /\ append_iso14443a_crc fuel (framed ++ z1 :: z2 :: rest)
                            (Z.of_nat (length framed))
       = Ok (framed ++ 0 :: 0 :: rest).
Proof.
  intros Hd Hne Hlen Hfuel.
  set (w := crc_fold data 0x6363).
  assert (Hw : is_u16 w) by (apply crc_fold_u16; [exact Hd|unfold is_u16; lia]).
  exists (data ++ [w mod 256; w / 256]).
  assert (Hlo : is_u8 (w mod 256)) by (unfold is_u8; apply Z.mod_pos_bound; lia).
  assert (Hhi : is_u8 (w / 256)).
  { unfold is_u8, is_u16 in *. change (2 ^ 16) with 65536 in Hw.
    split; [apply Z.div_pos; lia|apply Z.div_lt_upper_bound; lia]. }
  assert (Hlen2 : length (data ++ [w mod 256; w / 256]) = (length data + 2)%nat)
    by (rewrite length_app; reflexivity).
  split; [|split; [exact Hlen2|]].
  - rewrite (append_iso14443a_crc_fold data (z1 :: z2 :: rest) x y fuel)
      by (first [assumption|lia]).
    fold w. rewrite <- app_assoc. reflexivity.
  - rewrite (append_iso14443a_crc_fold (data ++ [w mod 256; w / 256]) rest z1 z2 fuel).
    + rewrite crc_fold_app. fold w. cbn [crc_fold fold_left].
      rewrite crc_body_residue by exact Hw. reflexivity.
    + apply Forall_app. split; [exact Hd|].
      constructor; [exact Hlo|constructor; [exact Hhi|constructor]].
    + intros H. apply (f_equal length) in H. rewrite Hlen2 in H. cbn in H. lia.
    + rewrite Hlen2. lia.
    + rewrite Hlen2. lia.
Qed.

Lemma append_iso14443a_crc_residue_witness :
  Forall is_u8 [0x93; 0x70]
  /\ [0x93; 0x70] <> []
  /\ Z.of_nat (length [0x93; 0x70]) + 2 < 2 ^ 32
  /\ (length [0x93; 0x70] + 2 <= 4)%nat
  /\ exists framed,
       append_iso14443a_crc 4 ([0x93; 0x70] ++ 1 :: 2 :: 3 :: 4 :: [5])
                            (Z.of_nat (length [0x93; 0x70]))
       = Ok (framed ++ 3 :: 4 :: [5])
       /\ length framed = (length [0x93; 0x70] + 2)%nat
       /\ append_iso14443a_crc 4 (framed ++ 3 :: 4 :: [5]) (Z.of_nat (length framed))
          = Ok (framed ++ 0 :: 0 :: [5]).
Proof.
  assert (H1 : Forall is_u8 [0x93; 0x70]) by (repeat constructor; unfold is_u8; lia).
  assert (H2 : [0x93; 0x70] <> []) by discriminate.
  assert (H3 : Z.of_nat (length [0x93; 0x70]) + 2 < 2 ^ 32) by (cbn; lia).
  assert (H4 : (length [0x93; 0x70] + 2 <= 4)%nat) by (cbn; lia).
  split; [exact H1|]. split; [exact H2|]. split; [exact H3|]. split; [exact H4|].
  exact (append_iso14443a_crc_residue [0x93; 0x70] [5] 1 2 3 4 4 H1 H2 H3 H4).
Defined.

(** X10. [append_iso14443a_crc] needs room for the two bytes it appends: on
    an array of fewer than [uiLen + 2] bytes it reads or writes beyond the
    end. *)
Theorem append_iso14443a_crc_overrun (mem : list Z) (uiLen : Z) (fuel : nat) :
  1 <= uiLen < 2 ^ 32 ->
  Z.of_nat (length mem) < uiLen + 2 ->
  (Z.to_nat uiLen <= fuel)%nat ->
  append_iso14443a_crc fuel mem uiLen = Fault.
Proof.
  intros Hlen Hmem Hfuel. unfold append_iso14443a_crc.
  destruct (Z_lt_le_dec (Z.of_nat (length mem)) uiLen) as [Hshort|Hlong].
  - destruct (crc_loop_overrun fuel mem ltac:(lia) 0%nat 0x6363 uiLen ltac:(lia)) as [_ HF].
    + destruct (Z.eqb_spec uiLen 0); lia.
    + rewrite HF by lia. reflexivity.
  - pose proof (crc_loop_spec (take (Z.to_nat uiLen) mem) fuel []
                  (drop (Z.to_nat uiLen) mem) 0x6363) as H.
    rewrite length_take, Nat.min_l, Z2Nat.id in H by lia.
    cbn [app length Nat.add] in H. rewrite take_drop in H. rewrite H; [|  |lia|lia].
    + cbn [obind fst snd]. unfold store.
      destruct (decide (Z.to_nat uiLen < length mem)%nat) as [Hin|Hout]; [|reflexivity].
      cbn [obind]. rewrite decide_False; [reflexivity|].
      rewrite length_insert. lia.
    + intros Hnil. apply (f_equal length) in Hnil.
      rewrite length_take in Hnil. cbn in Hnil. lia.
Qed.

Lemma append_iso14443a_crc_overrun_witness :
  1 <= 2 < 2 ^ 32
  /\ Z.of_nat (length [0x93; 0x70; 0]) < 2 + 2
  /\ (Z.to_nat 2 <= 2)%nat
  /\ append_iso14443a_crc 2 [0x93; 0x70; 0] 2 = Fault.
Proof.
  assert (H1 : 1 <= 2 < 2 ^ 32) by lia.
  assert (H2 : Z.of_nat (length [0x93; 0x70; 0]) < 2 + 2) by (cbn; lia).
  assert (H3 : (Z.to_nat 2 <= 2)%nat) by (cbn; lia).
  split; [exact H1|]. split; [exact H2|]. split; [exact H3|].
  exact (append_iso14443a_crc_overrun [0x93; 0x70; 0] 2 2 H1 H2 H3).
Defined.

Lemma crc_body_inv_body (x : Z) : 0 <= x < 65536 -> crc_body_inv (crc_body 0 x) = x.
Proof.
  intros Hx.
  pose proof (check_range_sound (fun x => crc_body_inv (crc_body 0 x) =? x)
                (Z.to_nat 65536) 0 ltac:(vm_compute; reflexivity) x) as H.
  cbv beta in H. rewrite Z2Nat.id in H by lia. specialize (H ltac:(lia)). lia.
Qed.

Lemma lxor_u16 (w bt : Z) : is_u16 w -> is_u8 bt -> 0 <= Z.lxor w bt < 65536.
Proof.
  intros Hw Hbt. apply (lxor_bound w bt 16); unfold is_u8, is_u16 in *; lia.
Qed.

(** The body of the loop is one-to-one, in the byte and in the register. *)
Lemma crc_body_inj (b1 b2 w1 w2 : Z) :
  is_u8 b1 -> is_u8 b2 -> is_u16 w1 -> is_u16 w2 ->
  crc_body b1 w1 = crc_body b2 w2 -> Z.lxor w1 b1 = Z.lxor w2 b2.
Proof.
  intros Hb1 Hb2 Hw1 Hw2 H.
  rewrite (crc_body_lxor b1), (crc_body_lxor b2) in H by assumption.
  apply (f_equal crc_body_inv) in H.
  rewrite !crc_body_inv_body in H by (apply lxor_u16; assumption).
  exact H.
Qed.

Lemma lxor_cancel_l (a b c : Z) : Z.lxor a b = Z.lxor a c -> b = c.
Proof.
  intros H. apply (f_equal (Z.lxor a)) in H.
  rewrite <- !Z.lxor_assoc, Z.lxor_nilpotent, !Z.lxor_0_l in H. exact H.
Qed.

Lemma lxor_cancel_r (a b c : Z) : Z.lxor a c = Z.lxor b c -> a = b.
Proof. rewrite !(Z.lxor_comm _ c). apply lxor_cancel_l. Qed.

Lemma crc_fold_inj (data : list Z) :
  forall w1 w2, Forall is_u8 data -> is_u16 w1 -> is_u16 w2 ->
  crc_fold data w1 = crc_fold data w2 -> w1 = w2.
Proof.
  induction data as [|d data IH]; intros w1 w2 Hd Hw1 Hw2 H; [exact H|].
  apply Forall_cons in Hd as [Hd Hdata].
  unfold crc_fold in H. cbn [fold_left] in H.
  apply IH in H; [|exact Hdata|apply crc_body_crc16; assumption..].
  apply crc_body_inj in H; try assumption.
  apply lxor_cancel_r in H. exact H.
Qed.

Lemma crc_fold_one_byte (pre post : list Z) (b1 b2 : Z) :
  Forall is_u8 pre -> Forall is_u8 post -> is_u8 b1 -> is_u8 b2 ->
  b1 <> b2 ->
  crc_fold (pre ++ b1 :: post) 0x6363 <> crc_fold (pre ++ b2 :: post) 0x6363.
Proof.
  intros Hpre Hpost Hb1 Hb2 Hne H.
  rewrite !crc_fold_app in H.
  assert (Hw : is_u16 (crc_fold pre 0x6363))
    by (apply crc_fold_crc16; [exact Hpre|unfold is_u16; lia]).
  change (crc_fold (b1 :: post) (crc_fold pre 0x6363))
    with (crc_fold post (crc_body b1 (crc_fold pre 0x6363))) in H.
  change (crc_fold (b2 :: post) (crc_fold pre 0x6363))
    with (crc_fold post (crc_body b2 (crc_fold pre 0x6363))) in H.
  apply crc_fold_inj in H; [|exact Hpost|apply crc_body_crc16; assumption..].
  apply crc_body_inj in H; try assumption.
  apply lxor_cancel_l in H. contradiction.
Qed.

(** X11. The checksum catches every error confined to one byte: for two
    messages that differ in one byte only, [append_iso14443a_crc] appends
    different checksums. *)
Theorem append_iso14443a_crc_detects_one_byte (pre post : list Z) (b1 b2 x y : Z)
    (fuel : nat) :
  Forall is_u8 pre -> Forall is_u8 post -> is_u8 b1 -> is_u8 b2 ->
  b1 <> b2 ->
  Z.of_nat (length (pre ++ b1 :: post)) < 2 ^ 32 ->
  (length (pre ++ b1 :: post) <= fuel)%nat ->
  exists c1 c2 d1 d2,
    append_iso14443a_crc fuel ((pre ++ b1 :: post) ++ [x; y])
                         (Z.of_nat (length (pre ++ b1 :: post)))
    = Ok ((pre ++ b1 :: post) ++ [c1; c2])
    /\ append_iso14443a_crc fuel ((pre ++ b2 :: post) ++ [x; y])
                            (Z.of_nat (length (pre ++ b2 :: post)))
       = Ok ((pre ++ b2 :: post) ++ [d1; d2])
    /\ (c1, c2) <> (d1, d2).
Proof.
  intros Hpre Hpost Hb1 Hb2 Hne Hlen Hfuel.
  assert (Hl : length (pre ++ b2 :: post) = length (pre ++ b1 :: post))
    by (rewrite !length_app; reflexivity).
  assert (Hd : forall b, is_u8 b -> Forall is_u8 (pre ++ b :: post)).
  { intros b Hb. apply Forall_app. split; [exact Hpre|]. constructor; assumption. }
  assert (Hn : forall b, pre ++ b :: post <> []) by (intros b; destruct pre; discriminate).
  do 4 eexists. split; [|split].
  - apply append_iso14443a_crc_fold; [apply Hd, Hb1|apply Hn|exact Hlen|exact Hfuel].
  - apply append_iso14443a_crc_fold; [apply Hd, Hb2|apply Hn|rewrite Hl; exact Hlen|
                                      rewrite Hl; exact Hfuel].
  - intros Heq. injection Heq as Hlo Hhi.
    apply (crc_fold_one_byte pre post b1 b2 Hpre Hpost Hb1 Hb2 Hne).
    rewrite (Z.div_mod (crc_fold (pre ++ b1 :: post) 0x6363) 256) by lia.
    rewrite (Z.div_mod (crc_fold (pre ++ b2 :: post) 0x6363) 256) by lia.
    rewrite Hlo, Hhi. reflexivity.
Qed.

Lemma append_iso14443a_crc_detects_one_byte_witness :
  Forall is_u8 [0x93] /\ Forall is_u8 [0xDE; 0xAD] /\ is_u8 0x70 /\ is_u8 0x20
  /\ 0x70 <> 0x20
  /\ Z.of_nat (length ([0x93] ++ 0x70 :: [0xDE; 0xAD])) < 2 ^ 32
  /\ (length ([0x93] ++ 0x70 :: [0xDE; 0xAD]) <= 4)%nat
  /\ exists c1 c2 d1 d2,
       append_iso14443a_crc 4 (([0x93] ++ 0x70 :: [0xDE; 0xAD]) ++ [0; 0])
                            (Z.of_nat (length ([0x93] ++ 0x70 :: [0xDE; 0xAD])))
       = Ok (([0x93] ++ 0x70 :: [0xDE; 0xAD]) ++ [c1; c2])
       /\ append_iso14443a_crc 4 (([0x93] ++ 0x20 :: [0xDE; 0xAD]) ++ [0; 0])
                               (Z.of_nat (length ([0x93] ++ 0x20 :: [0xDE; 0xAD])))
          = Ok (([0x93] ++ 0x20 :: [0xDE; 0xAD]) ++ [d1; d2])
       /\ (c1, c2) <> (d1, d2).
Proof.
  assert (H1 : Forall is_u8 [0x93]) by (repeat constructor; unfold is_u8; lia).
  assert (H2 : Forall is_u8 [0xDE; 0xAD]) by (repeat constructor; unfold is_u8; lia).
  assert (H3 : is_u8 0x70) by (unfold is_u8; lia).
  assert (H4 : is_u8 0x20) by (unfold is_u8; lia).
  assert (H5 : 0x70 <> 0x20) by discriminate.
  assert (H6 : Z.of_nat (length ([0x93] ++ 0x70 :: [0xDE; 0xAD])) < 2 ^ 32) by (cbn; lia).
  assert (H7 : (length ([0x93] ++ 0x70 :: [0xDE; 0xAD]) <= 4)%nat) by (cbn; lia).
  split; [exact H1|]. split; [exact H2|]. split; [exact H3|]. split; [exact H4|].
  split; [exact H5|]. split; [exact H6|]. split; [exact H7|].
  exact (append_iso14443a_crc_detects_one_byte [0x93] [0xDE; 0xAD] 0x70 0x20 0 0 4
           H1 H2 H3 H4 H5 H6 H7).
Defined.

(** ** More on the dumps *)

Lemma print_hex_loop_length (pbtData : list Z) (n : nat) :
  forall uiPos, (uiPos + n <= length pbtData)%nat ->
  exists body, print_hex_loop n pbtData uiPos = Ok body
               /\ String.length body = (4 * n)%nat.
Proof.
  induction n as [|n IH]; intros uiPos Hlen;
    [exists EmptyString; split; reflexivity|].
  destruct (lookup_lt_is_Some_2 pbtData uiPos ltac:(lia)) as [d Hd].
  destruct (IH (S uiPos) ltac:(lia)) as (rest & Hrest & Hl).
  cbn [print_hex_loop]. unfold load. rewrite Hd. cbn [obind]. rewrite Hrest.
  cbn [obind]. eexists. split; [reflexivity|].
  rewrite !length_append, Hl. cbn [fmt_02x String.length]. lia.
Qed.

Lemma print_hex_loop_short (pbtData : list Z) (n : nat) :
  forall uiPos, (uiPos <= length pbtData < uiPos + n)%nat ->
  print_hex_loop n pbtData uiPos = Fault.
Proof.
  induction n as [|n IH]; intros uiPos Hlen; [lia|].
  cbn [print_hex_loop]. unfold load.
  destruct (pbtData !! uiPos) as [d|] eqn:Hd; cbn [obind]; [|reflexivity].
  apply lookup_lt_Some in Hd. rewrite IH by lia. reflexivity.
Qed.

(** X12. [print_hex_bits] stays inside the array exactly when the array holds
    every byte that carries one of the [uiBits] bits; it then writes four
    characters for each whole byte, two for a last partial byte, and a
    newline. *)
Theorem print_hex_bits_bounds (pbtData : list Z) (uiBits : Z) :
  0 <= uiBits ->
  (Z.of_nat (length pbtData) < (uiBits + 7) / 8 ->
   print_hex_bits pbtData uiBits = Fault)
  /\ ((uiBits + 7) / 8 <= Z.of_nat (length pbtData) ->
      exists out,
        print_hex_bits pbtData uiBits = Ok out
        /\ Z.of_nat (String.length out)
           = 4 * (uiBits / 8) + (if uiBits mod 8 =? 0 then 0 else 2) + 1).
Proof.
  intros Hbits.
  assert (Hbytes : 0 <= uiBits / 8 <= (uiBits + 7) / 8
                   /\ (uiBits mod 8 <> 0 -> (uiBits + 7) / 8 = uiBits / 8 + 1)
                   /\ (uiBits mod 8 = 0 -> (uiBits + 7) / 8 = uiBits / 8))
    by (Z.div_mod_to_equations; lia).
  destruct Hbytes as (Hbytes & Hpartial & Hwhole).
  unfold print_hex_bits, print_rest_bits. split.
  - intros Hshort.
    destruct (Z_lt_le_dec (Z.of_nat (length pbtData)) (uiBits / 8)) as [Hs|Hl].
    + rewrite print_hex_loop_short by lia. reflexivity.
    + destruct (print_hex_loop_length pbtData (Z.to_nat (uiBits / 8)) 0)
        as (body & -> & _); [lia|]. cbn [obind].
      destruct (Z.eqb_spec (uiBits mod 8) 0) as [H0|H0]; [lia|]. cbn [negb].
      unfold load. rewrite lookup_ge_None_2 by lia. reflexivity.
  - intros Hfit.
    destruct (print_hex_loop_length pbtData (Z.to_nat (uiBits / 8)) 0)
      as (body & -> & Hl); [lia|]. cbn [obind].
    destruct (Z.eqb_spec (uiBits mod 8) 0) as [H0|H0]; cbn [negb obind].
    + eexists. split; [reflexivity|].
      rewrite !length_append, Hl. cbn [String.length nl]. lia.
    + destruct (lookup_lt_is_Some_2 pbtData (Z.to_nat (uiBits / 8)) ltac:(lia))
        as [d Hd].
      unfold load. rewrite Hd. cbn [obind]. eexists. split; [reflexivity|].
      rewrite !length_append, Hl. cbn [String.length nl fmt_02x]. lia.
Qed.

Lemma print_hex_bits_bounds_witness :
  0 <= 20
  /\ (Z.of_nat (length [0x26; 0xff; 0x01]) < (20 + 7) / 8 ->
      print_hex_bits [0x26; 0xff; 0x01] 20 = Fault)
  /\ ((20 + 7) / 8 <= Z.of_nat (length [0x26; 0xff; 0x01]) ->
      exists out,
        print_hex_bits [0x26; 0xff; 0x01] 20 = Ok out
        /\ Z.of_nat (String.length out)
           = 4 * (20 / 8) + (if 20 mod 8 =? 0 then 0 else 2) + 1).
Proof.
  assert (H1 : 0 <= 20) by lia.
  split; [exact H1|]. exact (print_hex_bits_bounds [0x26; 0xff; 0x01] 20 H1).
Defined.

(** X13. On a whole number of bytes whose number of bits is a [ui32],
    [print_hex_bits] writes what [print_hex] writes. *)
Theorem print_hex_bits_whole (pbtData : list Z) (uiBytes : Z) :
  0 <= 8 * uiBytes < 2 ^ 32 ->
  print_hex_bits pbtData (8 * uiBytes) = print_hex pbtData uiBytes.
Proof.
  intros _. unfold print_hex_bits, print_hex, print_rest_bits.
  replace (8 * uiBytes / 8) with uiBytes by (Z.div_mod_to_equations; lia).
  replace (8 * uiBytes mod 8) with 0 by (Z.div_mod_to_equations; lia).
  cbn [Z.eqb negb].
  destruct (print_hex_loop (Z.to_nat uiBytes) pbtData 0); reflexivity.
Qed.

Lemma print_hex_bits_whole_witness :
  0 <= 8 * 2 < 2 ^ 32
  /\ print_hex_bits [0x26; 0xff; 0x01] (8 * 2) = print_hex [0x26; 0xff; 0x01] 2.
Proof.
  assert (H1 : 0 <= 8 * 2 < 2 ^ 32) by lia.
  split; [exact H1|]. exact (print_hex_bits_whole [0x26; 0xff; 0x01] 2 H1).
Defined.

Lemma print_hex_par_loop_clean (pbtData pbtDataPar : list Z) (n : nat) :
  forall uiPos,
  (forall j d, (j < n)%nat -> pbtData !! (uiPos + j)%nat = Some d ->
     pbtDataPar !! (uiPos + j)%nat = Some (oddparity d)) ->
  print_hex_par_loop n pbtData uiPos pbtDataPar = print_hex_loop n pbtData uiPos.
Proof.
  induction n as [|n IH]; intros uiPos Hpar; [reflexivity|].
  cbn [print_hex_par_loop print_hex_loop]. unfold load.
  destruct (pbtData !! uiPos) as [d|] eqn:Hd; cbn [obind]; [|reflexivity].
  pose proof (Hpar 0%nat d ltac:(lia)) as H0. rewrite Nat.add_0_r in H0.
  rewrite (H0 Hd). cbn [obind].
  rewrite IH.
  - destruct (print_hex_loop n pbtData (S uiPos)); cbn [obind]; try reflexivity.
    unfold print_hex_par_byte, oddparity. rewrite Z.eqb_refl. reflexivity.
  - intros j d' Hj Hd'. replace (S uiPos + j)%nat with (uiPos + S j)%nat in * by lia.
    apply Hpar; [lia|exact Hd'].
Qed.

Lemma oddparity_bytes_ok (pbtData pbtPar : list Z) (uiLen : Z) :
  0 <= uiLen <= Z.of_nat (length pbtData) ->
  uiLen <= Z.of_nat (length pbtPar) ->
  oddparity_bytes pbtData uiLen pbtPar
  = Ok (map oddparity (take (Z.to_nat uiLen) pbtData) ++ drop (Z.to_nat uiLen) pbtPar).
Proof.
  intros Hlen Hpar. unfold oddparity_bytes.
  rewrite <- (take_drop (Z.to_nat uiLen) pbtPar) at 1.
  pose proof (oddparity_bytes_loop_spec pbtData (Z.to_nat uiLen) 0 []
                (take (Z.to_nat uiLen) pbtPar) (drop (Z.to_nat uiLen) pbtPar)) as H.
  cbn [app] in H. rewrite drop_0 in H. apply H; [reflexivity| |lia].
  rewrite length_take. lia.
Qed.

(** X14. The parity bits that [oddparity_bytes] computes for a frame are the
    ones [print_hex_par] expects: with them it marks no byte and writes
    what [print_hex_bits] writes. *)
Theorem print_hex_par_of_oddparity_bytes (pbtData pbtPar : list Z) (uiBits : Z) :
  0 <= uiBits ->
  uiBits / 8 <= Z.of_nat (length pbtData) ->
  uiBits / 8 <= Z.of_nat (length pbtPar) ->
  exists pbtPar',
    oddparity_bytes pbtData (uiBits / 8) pbtPar = Ok pbtPar'
    /\ print_hex_par pbtData uiBits pbtPar' = print_hex_bits pbtData uiBits.
Proof.
  intros Hbits Hdata Hpar.
  assert (H0 : 0 <= uiBits / 8) by (Z.div_mod_to_equations; lia).
  eexists. split; [apply oddparity_bytes_ok; lia|].
  unfold print_hex_par, print_hex_bits.
  rewrite print_hex_par_loop_clean; [reflexivity|].
  intros j d Hj Hd. cbn [Nat.add] in *.
  rewrite lookup_app_l by (rewrite length_map, length_take; lia).
  rewrite list_lookup_fmap, lookup_take_lt, Hd by exact Hj. reflexivity.
Qed.

Lemma print_hex_par_of_oddparity_bytes_witness :
  0 <= 20
  /\ 20 / 8 <= Z.of_nat (length [0x26; 0xff; 0x01])
  /\ 20 / 8 <= Z.of_nat (length [7; 7])
  /\ exists pbtPar',
       oddparity_bytes [0x26; 0xff; 0x01] (20 / 8) [7; 7] = Ok pbtPar'
       /\ print_hex_par [0x26; 0xff; 0x01] 20 pbtPar'
          = print_hex_bits [0x26; 0xff; 0x01] 20.
Proof.
  assert (H1 : 0 <= 20) by lia.
  assert (H2 : 20 / 8 <= Z.of_nat (length [0x26; 0xff; 0x01])) by (vm_compute; discriminate).
  assert (H3 : 20 / 8 <= Z.of_nat (length [7; 7])) by (vm_compute; discriminate).
  split; [exact H1|]. split; [exact H2|]. split; [exact H3|].
  exact (print_hex_par_of_oddparity_bytes [0x26; 0xff; 0x01] [7; 7] 20 H1 H2 H3).
Defined.

(** ** The command line *)

(** Leading [-q] options are consumed one by one. *)
Lemma main_options_quiet_prefix (argv0 : string) (pre : list string) :
  forall rest m, Forall (eq "-q"%string) pre -> pre <> [] ->
  exists m1, main_options argv0 (pre ++ rest) m = main_options argv0 rest m1
             /\ quiet_output m1 = true
             /\ same_identity m m1 /\ sent m1 = sent m.
Proof.
  induction pre as [|a pre IH]; intros rest m Hq Hne; [contradiction|].
  apply Forall_cons in Hq as [<- Hq].
  cbn [app main_options String.eqb Ascii.eqb Bool.eqb].
  destruct pre as [|b pre].
  - eexists. split; [reflexivity|].
    destruct m; msimpl. repeat split.
  - destruct (IH rest (set_quiet_output true (printf ("Quiet mode." ++ nl) m)) Hq
                ltac:(discriminate)) as (m1 & Heq & Hquiet & Hid & Hsent).
    exists m1. split; [exact Heq|]. split; [exact Hquiet|].
    destruct m; msimpl. split; assumption.
Qed.

Lemma main_options_nil_or_quiet (argv0 : string) (pre : list string) (m : machine) :
  Forall (eq "-q"%string) pre ->
  exists m1, main_options argv0 pre m = Running m1
             /\ quiet_output m1 = (quiet_output m || negb (bool_decide (pre = [])))
             /\ same_identity m m1 /\ sent m1 = sent m.
Proof.
  intros Hq. destruct (decide (pre = [])) as [->|Hne].
  - exists m. cbn. rewrite orb_false_r. repeat split.
  - destruct (main_options_quiet_prefix argv0 pre [] m Hq Hne)
      as (m1 & Heq & Hquiet & Hid & Hsent).
    rewrite app_nil_r in Heq. exists m1. rewrite Heq.
    rewrite bool_decide_eq_false_2 by exact Hne. cbn [negb]. rewrite orb_true_r.
    split; [reflexivity|]. split; [exact Hquiet|]. split; assumption.
Qed.

(** X15. [main] goes on past its options exactly when every argument is
    [-q], except that the last one may be a UID of eight characters. *)
Theorem main_options_accepts (argv0 : string) (args : list string) (m : machine) :
  (exists m', main_options argv0 args m = Running m')
  <-> (Forall (eq "-q"%string) args
       \/ exists pre a, args = pre ++ [a]
                        /\ Forall (eq "-q"%string) pre
                        /\ String.length a = 8%nat).
Proof.
  split.
  - revert m. induction args as [|a rest IH]; intros m [m' Hrun]; [left; constructor|].
    cbn [main_options] in Hrun.
    destruct (String.eqb_spec a "-h") as [->|Hh]; [discriminate|].
    destruct (String.eqb_spec a "-q") as [->|Hq].
    + destruct (IH _ (ex_intro _ m' Hrun)) as [Hall|(pre & b & -> & Hpre & Hb)].
      * left. constructor; [reflexivity|exact Hall].
      * right. exists ("-q"%string :: pre), b. split; [reflexivity|].
        split; [constructor; [reflexivity|exact Hpre]|exact Hb].
    + destruct rest as [|b rest]; cbn [andb] in Hrun; [|discriminate].
      destruct (Z.eqb_spec (Z.of_nat (String.length a)) 8) as [H8|H8]; [|discriminate].
      right. exists [], a. split; [reflexivity|]. split; [constructor|lia].
  - intros [Hall|(pre & a & -> & Hpre & Ha)].
    + destruct (main_options_nil_or_quiet argv0 args m Hall) as (m1 & H & _).
      exists m1. exact H.
    + assert (Hlast : exists m', forall m0, main_options argv0 [a] m0 = Running (m' m0)).
      { exists (fun m0 => main_uid a m0). intros m0. cbn [main_options].
        destruct (String.eqb_spec a "-h") as [->|_]; [discriminate Ha|].
        destruct (String.eqb_spec a "-q") as [->|_]; [discriminate Ha|].
        rewrite Ha. reflexivity. }
      destruct Hlast as [f Hf].
      destruct (decide (pre = [])) as [->|Hne].
      * exists (f m). apply Hf.
      * destruct (main_options_quiet_prefix argv0 pre [a] m Hpre Hne) as (m1 & Heq & _).
        exists (f m1). rewrite Heq. apply Hf.
Qed.

(** X16. When [main] stops at its options, it is with [EXIT_SUCCESS] at the
    first [-h], or with [EXIT_FAILURE] at the first argument that is
    neither [-h] nor [-q] nor a last argument of eight characters; only
    [-q] options come before it, and no frame was sent. *)
Theorem main_options_exits (argv0 : string) (args : list string) (m m' : machine)
    (c : Z) :
  main_options argv0 args m = Exited c m' ->
  exists pre a rest,
    args = pre ++ a :: rest
    /\ Forall (eq "-q"%string) pre
    /\ ((a = "-h"%string /\ c = EXIT_SUCCESS)
        \/ (a <> "-h"%string /\ a <> "-q"%string
            /\ (rest <> [] \/ String.length a <> 8%nat)
            /\ c = EXIT_FAILURE))
    /\ sent m' = sent m
    /\ same_identity m m'.
Proof.
  revert m. induction args as [|a rest IH]; intros m Hrun; [discriminate|].
  cbn [main_options] in Hrun.
  destruct (String.eqb_spec a "-h") as [->|Hh].
  { injection Hrun as <- <-. exists [], "-h"%string, rest.
    split; [reflexivity|]. split; [constructor|]. split; [left; split; reflexivity|].
    destruct m; unfold print_usage; msimpl. repeat split. }
  destruct (String.eqb_spec a "-q") as [->|Hq].
  { apply IH in Hrun as (pre & b & rest' & -> & Hpre & Hcase & Hsent & Hid).
    exists ("-q"%string :: pre), b, rest'. split; [reflexivity|].
    split; [constructor; [reflexivity|exact Hpre]|]. split; [exact Hcase|].
    destruct m; msimpl. split; assumption. }
  exists [], a, rest. split; [reflexivity|]. split; [constructor|].
  destruct rest as [|b rest]; cbn [andb] in Hrun.
  - destruct (Z.eqb_spec (Z.of_nat (String.length a)) 8) as [H8|H8]; [discriminate|].
    injection Hrun as <- <-.
    split; [right; repeat split; try assumption; right; lia|].
    destruct m; unfold print_usage; msimpl. repeat split.
  - injection Hrun as <- <-.
    split; [right; repeat split; try assumption; left; discriminate|].
    destruct m; unfold print_usage; msimpl. repeat split.
Qed.

Lemma main_options_exits_witness :
  main_options "nfc-emulate-uid" ["-q"; "DEADBEAF"; "-q"]%string initial
  = Exited EXIT_FAILURE
      (print_usage "nfc-emulate-uid"
         (eprint "DEADBEAF is not supported option."
            (set_quiet_output true (printf ("Quiet mode." ++ nl) initial))))
  /\ exists pre a rest,
       ["-q"; "DEADBEAF"; "-q"]%string = pre ++ a :: rest
       /\ Forall (eq "-q"%string) pre
       /\ ((a = "-h"%string /\ EXIT_FAILURE = EXIT_SUCCESS)
           \/ (a <> "-h"%string /\ a <> "-q"%string
               /\ (rest <> [] \/ String.length a <> 8%nat)
               /\ EXIT_FAILURE = EXIT_FAILURE))
       /\ sent (print_usage "nfc-emulate-uid"
                  (eprint "DEADBEAF is not supported option."
                     (set_quiet_output true (printf ("Quiet mode." ++ nl) initial))))
          = sent initial
       /\ same_identity initial
            (print_usage "nfc-emulate-uid"
               (eprint "DEADBEAF is not supported option."
                  (set_quiet_output true (printf ("Quiet mode." ++ nl) initial)))).
Proof.
  assert (H : main_options "nfc-emulate-uid" ["-q"; "DEADBEAF"; "-q"]%string initial
              = Exited EXIT_FAILURE
                  (print_usage "nfc-emulate-uid"
                     (eprint "DEADBEAF is not supported option."
                        (set_quiet_output true (printf ("Quiet mode." ++ nl) initial)))))
    by reflexivity.
  split; [exact H|].
  exact (main_options_exits _ _ _ _ _ H).
Defined.

Lemma main_options_quiet_flag (argv0 : string) (args : list string) :
  forall m0 m, main_options argv0 args m0 = Running m ->
  quiet_output m = (quiet_output m0 || existsb (String.eqb "-q") args).
Proof.
  induction args as [|a rest IH]; intros m0 m Hrun.
  - injection Hrun as <-. cbn [existsb]. rewrite orb_false_r. reflexivity.
  - cbn [main_options] in Hrun. cbn [existsb]. rewrite (String.eqb_sym "-q" a).
    destruct (String.eqb_spec a "-h") as [->|Hh]; [discriminate|].
    destruct (String.eqb_spec a "-q") as [->|Hq].
    + apply IH in Hrun. rewrite Hrun. destruct m0; msimpl.
      rewrite orb_true_r. reflexivity.
    + destruct rest as [|b rest]; cbn [andb] in Hrun; [|discriminate].
      destruct (Z.of_nat (String.length a) =? 8); [|discriminate].
      cbn [main_options] in Hrun. injection Hrun as <-.
      unfold main_uid. destruct m0; msimpl. cbn [existsb orb].
      rewrite orb_false_r. reflexivity.
Qed.

Lemma existsb_quiet (args : list string) :
  existsb (String.eqb "-q") args = true <-> In "-q"%string args.
Proof.
  rewrite existsb_exists. split.
  - intros (a & Hin & Heq). apply String.eqb_eq in Heq. subst a. exact Hin.
  - intros Hin. exists "-q"%string. split; [exact Hin|reflexivity].
Qed.

(** X17. Past the options, the quiet flag is set exactly when [-q] was among
    them. *)
Theorem main_options_quiet (argv0 : string) (args : list string) (m : machine) :
  main_options argv0 args initial = Running m ->
  (quiet_output m = true <-> In "-q"%string args).
Proof.
  intros Hrun. apply main_options_quiet_flag in Hrun.
  cbn [initial quiet_output orb] in Hrun. rewrite Hrun. apply existsb_quiet.
Qed.

Lemma main_options_quiet_witness :
  main_options "nfc-emulate-uid" ["-q"; "DEADBEAF"]%string initial
  = Running (main_uid "DEADBEAF"
               (set_quiet_output true (printf ("Quiet mode." ++ nl) initial)))
  /\ (quiet_output (main_uid "DEADBEAF"
                      (set_quiet_output true (printf ("Quiet mode." ++ nl) initial)))
      = true
      <-> In "-q"%string ["-q"; "DEADBEAF"]%string).
Proof.
  assert (H : main_options "nfc-emulate-uid" ["-q"; "DEADBEAF"]%string initial
              = Running (main_uid "DEADBEAF"
                           (set_quiet_output true (printf ("Quiet mode." ++ nl) initial))))
    by reflexivity.
  split; [exact H|]. exact (main_options_quiet _ _ _ H).
Defined.

(** ** The UID on the command line *)

Lemma strtol16_fmt (b : Z) :
  is_u8 b -> strtol16 (fmt_02X b) = b /\ strtol16 (fmt_02x b) = b.
Proof.
  intros Hb.
  pose proof (check_u8 (fun b => (strtol16 (fmt_02X b) =? b)
                                 && (strtol16 (fmt_02x b) =? b))) as H.
  specialize (H ltac:(vm_compute; reflexivity) b Hb). cbv beta in H.
  apply andb_true_iff in H as [H1 H2]. split; lia.
Qed.

Lemma main_uid_loop_hex (s0 s1 s2 s3 : string) (l0 l1 l2 l3 l4 : Z) :
  String.length s0 = 2%nat -> String.length s1 = 2%nat ->
  String.length s2 = 2%nat -> String.length s3 = 2%nat ->
  main_uid_loop 4 0 (s0 ++ s1 ++ s2 ++ s3) (<[4%nat := 0]> [l0; l1; l2; l3; l4])
  = [u8 (strtol16 s0); u8 (strtol16 s1); u8 (strtol16 s2); u8 (strtol16 s3);
     Z.lxor (Z.lxor (Z.lxor (u8 (strtol16 s0)) (u8 (strtol16 s1))) (u8 (strtol16 s2)))
            (u8 (strtol16 s3))].
Proof.
  intros H0 H1 H2 H3.
  assert (Hs : forall s, String.length s = 2%nat ->
            exists c c', s = String c (String c' EmptyString)).
  { intros [|c [|c' [|]]]; cbn; intros H; try discriminate. eauto. }
  destruct (Hs s0 H0) as (a0 & b0 & ->). destruct (Hs s1 H1) as (a1 & b1 & ->).
  destruct (Hs s2 H2) as (a2 & b2 & ->). destruct (Hs s3 H3) as (a3 & b3 & ->).
  rewrite main_uid_loop_4. reflexivity.
Qed.

(** X18. A UID written as the eight hexadecimal digits of four bytes, in
    capitals or in small letters, is stored as those four bytes, followed
    by their exclusive or. *)
Theorem main_options_uid_digits (argv0 : string) (args : list string) (m : machine)
    (u0 u1 u2 u3 : Z) (upper : bool) :
  is_u8 u0 -> is_u8 u1 -> is_u8 u2 -> is_u8 u3 ->
  last args = Some (let fmt := if upper then fmt_02X else fmt_02x in
                    fmt u0 ++ fmt u1 ++ fmt u2 ++ fmt u3)%string ->
  main_options argv0 args initial = Running m ->
  abtUidBcc m = [u0; u1; u2; u3; Z.lxor (Z.lxor (Z.lxor u0 u1) u2) u3].
Proof.
  intros H0 H1 H2 H3 Hlast Hrun.
  apply main_options_spec in Hrun as (_ & _ & HU). rewrite Hlast in HU.
  cbv zeta in HU.
  assert (Hfmt : forall b, is_u8 b ->
            String.length ((if upper then fmt_02X else fmt_02x) b) = 2%nat
            /\ u8 (strtol16 ((if upper then fmt_02X else fmt_02x) b)) = b).
  { intros b Hb. destruct (strtol16_fmt b Hb) as [HX Hx].
    destruct upper; (split; [reflexivity|]);
      [rewrite HX|rewrite Hx]; apply Z.mod_small, Hb. }
  set (fmt := if upper then fmt_02X else fmt_02x) in *.
  destruct (Hfmt u0 H0) as [L0 V0]. destruct (Hfmt u1 H1) as [L1 V1].
  destruct (Hfmt u2 H2) as [L2 V2]. destruct (Hfmt u3 H3) as [L3 V3].
  assert (H8 : (Z.of_nat (String.length (fmt u0 ++ fmt u1 ++ fmt u2 ++ fmt u3)) =? 8) = true).
  { rewrite !length_append, L0, L1, L2, L3. reflexivity. }
  rewrite H8 in HU. cbn [initial abtUidBcc] in HU.
  rewrite main_uid_loop_hex in HU by assumption.
  rewrite V0, V1, V2, V3 in HU. exact HU.
Qed.

Lemma main_options_uid_digits_witness :
  is_u8 0x01 /\ is_u8 0xfe /\ is_u8 0x80 /\ is_u8 0x7f
  /\ last ["-q"; "01fe807f"]%string
     = Some (let fmt := if false then fmt_02X else fmt_02x in
             fmt 0x01 ++ fmt 0xfe ++ fmt 0x80 ++ fmt 0x7f)%string
  /\ main_options "nfc-emulate-uid" ["-q"; "01fe807f"]%string initial
     = Running (main_uid "01fe807f"
                  (set_quiet_output true (printf ("Quiet mode." ++ nl) initial)))
  /\ abtUidBcc (main_uid "01fe807f"
                  (set_quiet_output true (printf ("Quiet mode." ++ nl) initial)))
     = [0x01; 0xfe; 0x80; 0x7f; Z.lxor (Z.lxor (Z.lxor 0x01 0xfe) 0x80) 0x7f].
Proof.
  assert (H0 : is_u8 0x01) by (unfold is_u8; lia).
  assert (H1 : is_u8 0xfe) by (unfold is_u8; lia).
  assert (H2 : is_u8 0x80) by (unfold is_u8; lia).
  assert (H3 : is_u8 0x7f) by (unfold is_u8; lia).
  assert (H4 : last ["-q"; "01fe807f"]%string
               = Some (let fmt := if false then fmt_02X else fmt_02x in
                       fmt 0x01 ++ fmt 0xfe ++ fmt 0x80 ++ fmt 0x7f)%string)
    by reflexivity.
  assert (H5 : main_options "nfc-emulate-uid" ["-q"; "01fe807f"]%string initial
               = Running (main_uid "01fe807f"
                            (set_quiet_output true (printf ("Quiet mode." ++ nl) initial))))
    by reflexivity.
  split; [exact H0|]. split; [exact H1|]. split; [exact H2|]. split; [exact H3|].
  split; [exact H4|]. split; [exact H5|].
  exact (main_options_uid_digits "nfc-emulate-uid" ["-q"; "01fe807f"]%string _
           0x01 0xfe 0x80 0x7f false H0 H1 H2 H3 H4 H5).
Defined.

(** ** Setting the device up *)

(** X19. [main] gets through the set-up of the device exactly when the four
    calls to the library succeed (the frame that [nfc_target_init] returns
    lying within [abtRecv]); otherwise it exits with [EXIT_FAILURE].  Either
    way no frame is sent and the reply buffers are untouched; on success
    the received frame is in [abtRecv]. *)
Theorem main_connect_outcome (d : device) (m : machine) :
  0 <= init_bits d ->
  (init_bits d + 7) / 8 <= Z.of_nat (length (init_data d)) ->
  exists m',
    main_connect d m
    = (if connect_ok d && init_ok d && configure_crc_ok d && configure_parity_ok d
       then Running m' else Exited EXIT_FAILURE m')
    /\ sent m' = sent m
    /\ same_identity m m'
    /\ quiet_output m' = quiet_output m
    /\ (connect_ok d = true -> abtRecv m' = init_data d /\ szRecvBits m' = init_bits d).
Proof.
  intros Hbits Hdata. unfold main_connect, same_identity.
  destruct (connect_ok d); cbn [negb andb].
  2: { eexists. split; [reflexivity|]. destruct m; msimpl.
       repeat split; discriminate. }
  destruct (init_ok d); cbn [negb andb].
  2: { eexists. split; [reflexivity|]. destruct m; msimpl. repeat split. }
  match goal with
  | |- context [printf_dump (print_hex_bits ?mem ?bits) ?m0] =>
      destruct (printf_dump_total mem bits m0) as [out ->]
  end.
  { destruct m; msimpl. exact Hbits. }
  { destruct m; msimpl. exact Hdata. }
  cbn [rbind].
  destruct (configure_crc_ok d), (configure_parity_ok d); cbn [negb orb];
    (eexists; split; [reflexivity|]); destruct m; msimpl; repeat split.
Qed.

Lemma main_connect_outcome_witness :
  let d := Device true "PN532" true (0x26 :: repeat 0 263) 7 true false in
  0 <= init_bits d
  /\ (init_bits d + 7) / 8 <= Z.of_nat (length (init_data d))
  /\ exists m',
       main_connect d initial
       = (if connect_ok d && init_ok d && configure_crc_ok d && configure_parity_ok d
          then Running m' else Exited EXIT_FAILURE m')
       /\ sent m' = sent initial
       /\ same_identity initial m'
       /\ quiet_output m' = quiet_output initial
       /\ (connect_ok d = true ->
           abtRecv m' = init_data d /\ szRecvBits m' = init_bits d).
Proof.
  intros d.
  assert (H1 : 0 <= init_bits d) by (cbn; lia).
  assert (H2 : (init_bits d + 7) / 8 <= Z.of_nat (length (init_data d)))
    by (vm_compute; discriminate).
  split; [exact H1|]. split; [exact H2|].
  exact (main_connect_outcome d initial H1 H2).
Defined.

(** ** The loop as a whole *)



Lemma same_identity_trans (m1 m2 m3 : machine) :
  same_identity m1 m2 -> same_identity m2 m3 -> same_identity m1 m3.
Proof. intros (A1 & B1 & C1) (A2 & B2 & C2). repeat split; congruence. Qed.


(** ** Whole runs *)







(** ** Malformed frames and lost replies *)



